(** * Financial dashboard: the metrics derivation engine of [app.py]

    A shallow embedding of the helper functions ([safe_first], [seek_row],
    [calc_ke], [calc_kd], [calc_wacc], [cagr4]), of the per-ticker builder
    [obtener_datos_financieros] and of the batch loop and sector ordering of
    [main], followed by the properties proved about them.

    Numbers are IEEE binary64 floats, as in Python and NumPy: a missing
    period of a statement row is a NaN cell, and [None] is a separate value.
    Python integers ([0], [1], a market capitalisation) are written as the
    float of the same magnitude. *)

From Stdlib Require Import ZArith List String Bool Floats Uint63.
From Stdlib Require Import Sorting.Sorted.
From stdpp Require Import base option gmap strings list.

Local Open Scope string_scope.

(** ** Python values and exceptions *)

(** The exceptions the modelled code can raise. [FetchError] stands for
    whatever the data provider raises while a ticker is downloaded. *)
Inductive exn : Type :=
| TypeError
| ValueError
| FetchError (description : string).

(** Outcome of evaluating a Python expression. [Outside] marks the one
    operation left out of the model, the label alignment pandas performs
    between two non-empty Series; the builder never reaches it (lemma
    [construir_inside]). *)
Inductive result (A : Type) : Type :=
| Ok (a : A)
| Raise (e : exn)
| Outside.

Arguments Ok {A} a.
Arguments Raise {A} e.
Arguments Outside {A}.

#[global] Instance result_bind : MBind result := fun A B k m =>
  match m with
  | Ok a => k a
  | Raise e => Raise e
  | Outside => Outside
  end.

(** Run-time values: [None], a number, a text, or a pandas Series (the
    cells of one statement row, most recent period first). *)
Inductive value : Type :=
| VNone
| VNum (x : float)
| VStr (s : string)
| VSeries (cells : list float).

Definition is_zero (x : float) : bool := (x =? 0)%float.

(** [bool(x)]: [None], zero and the empty text are false, NaN is true, and
    pandas refuses to give a Series a truth value. *)
Definition truth (v : value) : result bool :=
  match v with
  | VNone => Ok false
  | VNum x => Ok (negb (is_zero x))
  | VStr s => Ok (negb (String.eqb s ""))
  | VSeries _ => Raise ValueError
  end.

(** [a or b] and [a and b]; the right operand is evaluated only on demand. *)
Definition py_or (a : value) (b : result value) : result value :=
  t ← truth a; if (t : bool) then Ok a else b.

Definition py_and (a : value) (b : result value) : result value :=
  t ← truth a; if (t : bool) then b else Ok a.

Definition is_not_none (v : value) : bool :=
  match v with VNone => false | _ => true end.

Fixpoint traverse {A B : Type} (f : A -> result B) (l : list A) : result (list B) :=
  match l with
  | [] => Ok []
  | a :: l' => b ← f a; bs ← traverse f l'; Ok (b :: bs)
  end.

(** Binary arithmetic. Two numbers combine by the float operation [op];
    every division of the source has a divisor that is either guarded by
    its truth value or a NumPy float, so a zero divisor gives an IEEE
    infinity or NaN rather than an exception. A Series and a scalar
    combine cell by cell. [None] and texts are not numbers; two texts
    can only be added, which joins them. *)
Definition scalar_arith (op : float -> float -> float) (a b : value) : result float :=
  match a, b with
  | VNum x, VNum y => Ok (op x y)
  | _, _ => Raise TypeError
  end.

Definition arith (op : float -> float -> float) (a b : value) : result value :=
  match a, b with
  | VSeries [], VSeries [] => Ok (VSeries [])
  | VSeries _, VSeries _ => Outside
  | VSeries xs, _ =>
      ys ← traverse (fun x => scalar_arith op (VNum x) b) xs; Ok (VSeries ys)
  | _, VSeries ys =>
      zs ← traverse (fun y => scalar_arith op a (VNum y)) ys; Ok (VSeries zs)
  | _, _ => x ← scalar_arith op a b; Ok (VNum x)
  end.

Definition py_add (a b : value) : result value :=
  match a, b with
  | VStr s, VStr t => Ok (VStr (s ++ t))
  | _, _ => arith PrimFloat.add a b
  end.
Definition py_sub := arith PrimFloat.sub.
Definition py_mul := arith PrimFloat.mul.
Definition py_div := arith PrimFloat.div.

(** ** Statement tables *)

(** A pandas DataFrame as the provider returns it: the period labels
    (columns, most recent first) and the rows keyed by line-item name. *)
Record DataFrame : Type := {
  columns : list string;
  rows : gmap string (list float)
}.

(** [Series.dropna()]: the NaN cells are the missing ones. *)
Definition dropna (cells : list float) : list float :=
  List.filter (fun x => negb (is_nan x)) cells.

(** ** Helper functions *)

(** [safe_first(obj)]:
<<
    if obj is None: return None
    if hasattr(obj, "dropna"): obj = obj.dropna()
    return obj.iloc[0] if hasattr(obj, "iloc") and not obj.empty else obj
>> *)
Definition safe_first (obj : value) : value :=
  match obj with
  | VNone => VNone
  | VSeries cells =>
      match dropna cells with
      | x :: _ => VNum x
      | [] => VSeries []
      end
  | _ => obj
  end.

(** [seek_row(df, keys)]:
<<
    for k in keys:
        if k in df.index:
            return df.loc[k]
    return pd.Series([0], index=df.columns[:1])
>>
    The Series constructor raises [ValueError] when its one value meets an
    index of length zero, that is, when the table has no period at all. *)
Fixpoint seek_row (df : DataFrame) (keys : list string) : result value :=
  match keys with
  | k :: keys' =>
      match rows df !! k with
      | Some r => Ok (VSeries r)
      | None => seek_row df keys'
      end
  | [] =>
      match columns df with
      | [] => Raise ValueError
      | _ :: _ => Ok (VSeries [0%float])
      end
  end.

(** [len(v)] as a float, for the exponent [1/(len(v)-1)]. *)
Definition float_of_nat (n : nat) : float :=
  PrimFloat.of_uint63 (Uint63.of_Z (Z.of_nat n)).

(** What the provider's [info] dictionary holds under a key: [None], a
    number or a text. *)
Inductive scalar : Type :=
| SNone
| SNum (x : float)
| SStr (s : string).

Definition of_scalar (s : scalar) : value :=
  match s with
  | SNone => VNone
  | SNum x => VNum x
  | SStr t => VStr t
  end.

(** [info.get(key, default)]. *)
Definition get (info : gmap string scalar) (key : string) (dflt : value) : value :=
  match info !! key with
  | Some s => of_scalar s
  | None => dflt
  end.

(** What the provider hands over for one ticker. *)
Record raw : Type := {
  info : gmap string scalar;
  balance_sheet : DataFrame;
  financials : DataFrame;
  cashflow : DataFrame
}.

(** The provider either delivers the data of a ticker or raises. *)
Inductive download : Type :=
| Data (r : raw)
| Failure (e : exn).

Definition fetch (d : download) : result raw :=
  match d with
  | Data r => Ok r
  | Failure e => Raise e
  end.

(** The dictionary [obtener_datos_financieros] returns. *)
Record metrics : Type := {
  Ticker : string;
  Nombre : value;
  Pais : value;
  Industria : value;
  Sector : value;
  Precio : value;
  PE : value;
  PB : value;
  PFCF : value;
  DividendYield : value;
  PayoutRatio : value;
  ROA : value;
  ROE : value;
  CurrentRatio : value;
  QuickRatio : value;
  DebtEq : value;
  LtDebtEq : value;
  OperMargin : value;
  ProfitMargin : value;
  WACC : value;
  ROIC : value;
  CreacionValor : value;
  RevenueGrowth : value;
  EPSGrowth : value;
  FCFGrowth : value;
  MarketCap : value
}.

Section Calculators.

(** The editable parameters [Rf] (risk-free rate) and [Rm] (market
    return), module globals of the source. *)
Variables Rf Rm : float.

(** NumPy's float power [x ** y], a routine of the platform's maths
    library. *)
Variable power : float -> float -> float.

(** [calc_ke(beta)]: [Rf + beta * (Rm - Rf)]. *)
Definition calc_ke (beta : value) : result value :=
  premium ← py_mul beta (VNum (Rm - Rf)%float);
  py_add (VNum Rf) premium.

(** [calc_kd(interest, debt)]: [interest / debt if debt else 0]. *)
Definition calc_kd (interest debt : value) : result value :=
  t ← truth debt;
  if (t : bool) then py_div interest debt else Ok (VNum 0%float).

(** [calc_wacc(mcap, debt, ke, kd, t)]:
<<
  total = (mcap or 0) + (debt or 0)
  return (mcap/total)*ke + (debt/total)*kd*(1-t) if total else None
>> *)
Definition calc_wacc (mcap debt ke kd t : value) : result value :=
  e ← py_or mcap (Ok (VNum 0%float));
  d ← py_or debt (Ok (VNum 0%float));
  total ← py_add e d;
  nonzero ← truth total;
  if (nonzero : bool) then
    we ← py_div mcap total;
    equity_part ← py_mul we ke;
    wd ← py_div debt total;
    debt_cost ← py_mul wd kd;
    shield ← py_sub (VNum 1%float) t;
    debt_part ← py_mul debt_cost shield;
    py_add equity_part debt_part
  else Ok VNone.

(** [cagr4(fin, metric)]:
<<
  if metric not in fin.index:
      return None
  v = fin.loc[metric].dropna().iloc[:4]
  return (v.iloc[0]/v.iloc[-1])**(1/(len(v)-1))-1 if len(v)>1 and v.iloc[-1] else None
>> *)
Definition cagr4 (fin : DataFrame) (metric : string) : value :=
  match rows fin !! metric with
  | None => VNone
  | Some row =>
      let v := take 4 (dropna row) in
      match v, List.last v nan with
      | first :: _ :: _, final =>
          if is_zero final then VNone
          else VNum (power (first / final)
                           (1 / float_of_nat (length v - 1)) - 1)%float
      | _, _ => VNone
      end
  end.

(** The effective tax rate, [tax_exp / ebt if ebt else Tc_def]. *)
Definition tax_rate (tax_exp ebt : value) (Tc_def : float) : result value :=
  t ← truth ebt;
  if (t : bool) then py_div tax_exp ebt else Ok (VNum Tc_def).

(** [nopat = ebit * (1 - tax) if ebit is not None else None]. *)
Definition calc_nopat (ebit tax : value) : result value :=
  if is_not_none ebit then
    keep ← py_sub (VNum 1%float) tax;
    py_mul ebit keep
  else Ok VNone.

(** [invested = (equity or 0) + ((debt or 0) - (cash or 0))]. *)
Definition calc_invested (equity debt cash : value) : result value :=
  e ← py_or equity (Ok (VNum 0%float));
  d ← py_or debt (Ok (VNum 0%float));
  c ← py_or cash (Ok (VNum 0%float));
  net ← py_sub d c;
  py_add e net.

(** [roic = nopat / invested if (nopat is not None and invested) else None]. *)
Definition calc_roic (nopat invested : value) : result value :=
  usable ← (if is_not_none nopat then truth invested else Ok false);
  if (usable : bool) then py_div nopat invested else Ok VNone.

(** The value-creation spread:
<<
  creacion_valor = (roic - wacc) * 100 if all(v is not None for v in (roic, wacc)) else None
>> *)
Definition creacion_valor (roic wacc : value) : result value :=
  if is_not_none roic && is_not_none wacc then
    spread ← py_sub roic wacc;
    py_mul spread (VNum 100%float)
  else Ok VNone.

(** [pfcf = price / (fcf/shares) if (fcf and shares) else None]. *)
Definition calc_pfcf (price fcf shares : value) : result value :=
  both ← py_and fcf (Ok shares);
  t ← truth both;
  if (t : bool) then
    per_share ← py_div fcf shares;
    py_div price per_share
  else Ok VNone.

End Calculators.

(** ** The per-ticker builder *)

(** [str(e)], the text shown for an exception, shortened to the name of
    the exception for the two that Python and pandas raise. *)
Definition describe (e : exn) : string :=
  match e with
  | TypeError => "TypeError"
  | ValueError => "ValueError"
  | FetchError description => description
  end.

Section Builder.

Variables Rf Rm : float.
Variable power : float -> float -> float.

(** The data provider: [yf.Ticker(tk)] with its [info], [balance_sheet],
    [financials] and [cashflow], or the exception raised on the way. *)
Variable yf : string -> download.

(** The body of the [try] block of [obtener_datos_financieros]. *)
Definition construir (tk : string) (Tc_def : float) : result metrics :=
  tkr ← fetch (yf tk);
  let info := info tkr in
  let bs := balance_sheet tkr in
  let fin := financials tkr in
  let cf := cashflow tkr in
  let beta := get info "beta" (VNum 1%float) in
  ke ← calc_ke Rf Rm beta;
  debt_row ← seek_row bs ["Total Debt"; "Long Term Debt"];
  debt ← py_or (safe_first debt_row) (Ok (get info "totalDebt" (VNum 0%float)));
  cash_row ← seek_row bs ["Cash And Cash Equivalents";
                          "Cash And Cash Equivalents At Carrying Value";
                          "Cash Cash Equivalents And Short Term Investments"];
  let cash := safe_first cash_row in
  equity_row ← seek_row bs ["Common Stock Equity"; "Total Stockholder Equity"];
  let equity := safe_first equity_row in
  interest_row ← seek_row fin ["Interest Expense"];
  let interest := safe_first interest_row in
  ebt_row ← seek_row fin ["Ebt"; "EBT"];
  let ebt := safe_first ebt_row in
  tax_row ← seek_row fin ["Income Tax Expense"];
  let tax_exp := safe_first tax_row in
  ebit_row ← seek_row fin ["EBIT"; "Operating Income";
                           "Earnings Before Interest and Taxes"];
  let ebit := safe_first ebit_row in
  kd ← calc_kd interest debt;
  tax ← tax_rate tax_exp ebt Tc_def;
  let mcap := get info "marketCap" (VNum 0%float) in
  wacc ← calc_wacc mcap debt ke kd tax;
  nopat ← calc_nopat ebit tax;
  invested ← calc_invested equity debt cash;
  roic ← calc_roic nopat invested;
  spread ← creacion_valor roic wacc;
  let price := get info "currentPrice" VNone in
  fcf_row ← seek_row cf ["Free Cash Flow"];
  let fcf := safe_first fcf_row in
  let shares := get info "sharesOutstanding" VNone in
  pfcf ← calc_pfcf price fcf shares;
  let revenue_growth := cagr4 power fin "Total Revenue" in
  let eps_growth := cagr4 power fin "Net Income" in
  fcf_growth ← py_or (cagr4 power cf "Free Cash Flow")
                     (Ok (cagr4 power cf "Operating Cash Flow"));
  nombre ← py_or (get info "longName" VNone)
             (py_or (get info "shortName" VNone)
                (py_or (get info "displayName" VNone) (Ok (VStr tk))));
  pais ← py_or (get info "country" VNone)
           (py_or (get info "countryCode" VNone) (Ok (VStr "N/D")));
  industria ← py_or (get info "industry" VNone)
                (py_or (get info "industryKey" VNone)
                   (py_or (get info "industryDisp" VNone) (Ok (VStr "N/D"))));
  Ok {| Ticker := tk;
        Nombre := nombre;
        Pais := pais;
        Industria := industria;
        Sector := get info "sector" (VStr "Unknown");
        Precio := price;
        PE := get info "trailingPE" VNone;
        PB := get info "priceToBook" VNone;
        PFCF := pfcf;
        DividendYield := get info "dividendYield" VNone;
        PayoutRatio := get info "payoutRatio" VNone;
        ROA := get info "returnOnAssets" VNone;
        ROE := get info "returnOnEquity" VNone;
        CurrentRatio := get info "currentRatio" VNone;
        QuickRatio := get info "quickRatio" VNone;
        DebtEq := get info "debtToEquity" VNone;
        LtDebtEq := get info "longTermDebtToEquity" VNone;
        OperMargin := get info "operatingMargins" VNone;
        ProfitMargin := get info "profitMargins" VNone;
        WACC := wacc;
        ROIC := roic;
        CreacionValor := spread;
        RevenueGrowth := revenue_growth;
        EPSGrowth := eps_growth;
        FCFGrowth := fcf_growth;
        MarketCap := mcap |}.

(** [obtener_datos_financieros(tk, Tc_def)]: the body above inside
<<
  try: ...
  except Exception as e:
      st.error(f"Error obteniendo datos para {tk}: {str(e)}")
      return None
>>
    The second component lists what [st.error] put on the screen. *)
Definition obtener_datos_financieros (tk : string) (Tc_def : float)
  : result (option metrics * list string) :=
  match construir tk Tc_def with
  | Ok data => Ok (Some data, [])
  | Raise e => Ok (None, ["Error obteniendo datos para " ++ tk ++ ": " ++ describe e])
  | Outside => Outside
  end.

(** ** The batch loop of [main] *)

(** The two lists the loop fills, and the messages shown meanwhile. *)
Record batch : Type := {
  datos : list metrics;
  errs : list (string * string);
  shown : list string
}.

(** One iteration:
<<
  try:
      data = obtener_datos_financieros(tk, Tc0)
      if data:
          datos.append(data)
  except Exception as e:
      errs.append({"Ticker": tk, "Error": str(e)})
>> *)
Definition procesar (Tc0 : float) (st : batch) (tk : string) : result batch :=
  match obtener_datos_financieros tk Tc0 with
  | Ok (Some data, msgs) =>
      Ok {| datos := datos st ++ [data]; errs := errs st; shown := shown st ++ msgs |}
  | Ok (None, msgs) =>
      Ok {| datos := datos st; errs := errs st; shown := shown st ++ msgs |}
  | Raise e =>
      Ok {| datos := datos st; errs := errs st ++ [(tk, describe e)]; shown := shown st |}
  | Outside => Outside
  end.

(** [for i, tk in enumerate(tickers): ...] from the state [st]. *)
Fixpoint recorrer (Tc0 : float) (st : batch) (tickers : list string) : result batch :=
  match tickers with
  | [] => Ok st
  | tk :: rest => st' ← procesar Tc0 st tk; recorrer Tc0 st' rest
  end.

Definition analizar (Tc0 : float) (tickers : list string) : result batch :=
  recorrer Tc0 {| datos := []; errs := []; shown := [] |} tickers.

(** What one ticker contributes to [datos] and to the screen. *)
Definition construido (Tc0 : float) (tk : string) : option metrics :=
  match construir tk Tc0 with
  | Ok data => Some data
  | _ => None
  end.

Definition aviso (Tc0 : float) (tk : string) : list string :=
  match construir tk Tc0 with
  | Raise e => ["Error obteniendo datos para " ++ tk ++ ": " ++ describe e]
  | _ => []
  end.

End Builder.

(** ** Sector ordering *)

(** The table [SECTOR_RANK]. *)
Definition SECTOR_RANK : gmap string Z :=
  list_to_map [
    ("Consumer Defensive", 1%Z);
    ("Consumer Cyclical", 2%Z);
    ("Healthcare", 3%Z);
    ("Technology", 4%Z);
    ("Financial Services", 5%Z);
    ("Industrials", 6%Z);
    ("Communication Services", 7%Z);
    ("Energy", 8%Z);
    ("Real Estate", 9%Z);
    ("Utilities", 10%Z);
    ("Basic Materials", 11%Z);
    ("Unknown", 99%Z)
  ].

(** [df["Sector"].map(SECTOR_RANK).fillna(99).astype(int)] on one cell: a
    sector that is no key of the table, text or not, maps to NaN and is
    filled with 99. *)
Definition sector_rank (sector : value) : Z :=
  match sector with
  | VStr s => default 99%Z (SECTOR_RANK !! s)
  | _ => 99%Z
  end.

(** Lexicographic combination of two comparisons. *)
Definition lex (c1 c2 : comparison) : comparison :=
  match c1 with
  | Eq => c2
  | _ => c1
  end.

(** What a cell of the [Sector] column is to the sort: a number, a text,
    or a missing value. [None] and NaN are both missing to pandas; the
    column holds what [info] holds under "sector", never a row. *)
Inductive sort_cell : Type :=
| Number (x : float)
| Text (s : string)
| Missing.

Definition sector_cell (v : value) : sort_cell :=
  match v with
  | VNum x => if is_nan x then Missing else Number x
  | VStr s => Text s
  | VNone | VSeries _ => Missing
  end.

(** The order of two numbers neither of which is NaN. *)
Definition float_compare (x y : float) : comparison :=
  match (x ?= y)%float with
  | FLt => Lt
  | FGt => Gt
  | FEq | FNotComparable => Eq
  end.

(** Order of the [Sector] column. [sort_values] on several columns ranks
    the cells of each column by the sorted distinct values of the column
    and puts the missing ones last: numbers come first, by value, then the
    texts, by code point, then the missing cells, which tie. *)
Definition sector_compare (a b : value) : comparison :=
  match sector_cell a, sector_cell b with
  | Number x, Number y => float_compare x y
  | Number _, _ => Lt
  | _, Number _ => Gt
  | Text s, Text t => String.compare s t
  | Text _, Missing => Lt
  | Missing, Text _ => Gt
  | Missing, Missing => Eq
  end.

(** The sort key [["SectorRank", "Sector", "Ticker"]]. *)
Definition key_compare (a b : metrics) : comparison :=
  lex (Z.compare (sector_rank (Sector a)) (sector_rank (Sector b)))
      (lex (sector_compare (Sector a) (Sector b))
           (String.compare (Ticker a) (Ticker b))).

Definition key_leb (a b : metrics) : bool :=
  match key_compare a b with
  | Gt => false
  | _ => true
  end.

(** [df.sort_values([...])] is a stable sort; rows are inserted from the
    last to the first, each before the first row that is not smaller. *)
Fixpoint insert_row (x : metrics) (l : list metrics) : list metrics :=
  match l with
  | [] => [x]
  | y :: l' => if key_leb x y then x :: l else y :: insert_row x l'
  end.

Fixpoint sort_values (df : list metrics) : list metrics :=
  match df with
  | [] => []
  | x :: l => insert_row x (sort_values l)
  end.

(** The ordered table [main] goes on with, or [None] when the early
    return of [if not datos] is taken. *)
Definition portfolio (st : batch) : option (list metrics) :=
  match datos st with
  | [] => None
  | _ :: _ => Some (sort_values (datos st))
  end.

(** [x] stands somewhere before [y] in [l]. *)
Definition before (x y : metrics) (l : list metrics) : Prop :=
  exists l1 l2 l3 : list metrics, l = (l1 ++ x :: l2 ++ y :: l3)%list.

(** ** Sample data

    A small provider and a power routine on which the functions above can
    be run. *)

(** A power routine: exact at exponent 1, as IEEE 754 asks of [pow], and
    the correctly rounded square root at exponent 1/2; NaN elsewhere. The
    general statements below hold for every routine. *)
Definition power_example (x y : float) : float :=
  if (y =? 1)%float then x
  else if (y =? 0.5)%float then PrimFloat.sqrt x
  else nan.

Definition statement (periods : list string) (items : list (string * list float))
  : DataFrame :=
  {| columns := periods; rows := list_to_map items |}.

(** A table without any period, as the provider gives for a symbol it has
    no statements for ([pd.DataFrame()]). *)
Definition empty_statement : DataFrame := statement [] [].

Definition years : list string := ["2024"; "2023"; "2022"; "2021"; "2020"].

(** A company with two reported years. *)
Definition company (entries : list (string * scalar)) (debt : list float) : raw :=
  {| info := list_to_map entries;
     balance_sheet :=
       statement (take 2 years)
         [("Total Debt", debt);
          ("Cash And Cash Equivalents", [20%float; 10%float]);
          ("Common Stock Equity", [250%float; 200%float])];
     financials :=
       statement (take 2 years)
         [("Interest Expense", [5%float; 4%float]);
          ("Income Tax Expense", [20%float; 18%float]);
          ("EBIT", [110%float; 90%float]);
          ("Total Revenue", [100%float; 80%float]);
          ("Net Income", [80%float; 64%float])];
     cashflow :=
       statement (take 2 years) [("Free Cash Flow", [64%float; 32%float])] |}.

Definition yf_demo (tk : string) : download :=
  if String.eqb tk "MSFT" then
    Data (company [("sector", SStr "Technology"); ("marketCap", SNum 3000%float);
                   ("currentPrice", SNum 400%float); ("sharesOutstanding", SNum 8%float)]
                  [100%float; 90%float])
  else if String.eqb tk "AAPL" then
    Data (company [("sector", SStr "Technology"); ("marketCap", SNum 3500%float)]
                  [100%float; 90%float])
  else if String.eqb tk "XOM" then
    Data (company [("sector", SStr "Energy"); ("marketCap", SNum 500%float)]
                  [100%float; 90%float])
  else if String.eqb tk "ACME" then
    Data (company [("marketCap", SNum 10%float)] [100%float; 90%float])
  else if String.eqb tk "NOCAP" then
    Data (company [("sector", SStr "Energy"); ("marketCap", SNone)]
                  [100%float; 90%float])
  else if String.eqb tk "GAPS" then
    Data (company [("sector", SStr "Energy"); ("marketCap", SNum 500%float)]
                  [nan; nan])
  else if String.eqb tk "VOID" then
    Data {| info := list_to_map [("sector", SStr "Energy")];
            balance_sheet := empty_statement;
            financials := empty_statement;
            cashflow := empty_statement |}
  else Failure (FetchError "No data found, symbol may be delisted").

(** The sample provider under a risk-free rate of 1/32, a market return
    of 1/16 and a default tax rate of 1/4. *)
Definition construir_demo : string -> result metrics :=
  fun tk => construir 0.03125 0.0625 power_example yf_demo tk 0.25.

Definition analizar_demo : list string -> result batch :=
  analizar 0.03125 0.0625 power_example yf_demo 0.25.

(** Revenue rows with gaps, over five reported years. *)
Definition revenue_with_gap : DataFrame :=
  statement years [("Total Revenue", [100%float; nan; nan; nan; 80%float])].

Definition revenue_two_years : DataFrame :=
  statement (take 2 years) [("Total Revenue", [100%float; 80%float])].

Definition only_B : DataFrame :=
  statement (take 2 years) [("B", [7%float; 9%float])].

(** [None] or a number, as a calculator receives an input that may be
    unavailable. *)
Definition number_or_none (o : option float) : value :=
  match o with
  | Some x => VNum x
  | None => VNone
  end.

(** The number [x or 0] stands for: a zero of either sign becomes the
    integer 0. *)
Definition or_zero (x : float) : float :=
  if is_zero x then 0%float else x.

(** An input that is [None] or zero, the falsy inputs of [x or 0]. *)
Definition none_or_zero (o : option float) : bool :=
  match o with
  | Some x => is_zero x
  | None => true
  end.

(** A value that is not a Series with cells: what [safe_first] and the
    [info] dictionary deliver. *)
Definition plain (v : value) : Prop :=
  match v with
  | VSeries (_ :: _) => False
  | _ => True
  end.

(** The evaluation stays inside the model, and its value, if any,
    satisfies [P]. *)
Definition inside {A : Type} (P : A -> Prop) (r : result A) : Prop :=
  match r with
  | Ok a => P a
  | Raise _ => True
  | Outside => False
  end.

(** What a three-way comparison must satisfy to order a table. *)
Record ordering {A : Type} (cmp : A -> A -> comparison) : Prop := {
  cmp_antisym : forall a b, cmp b a = CompOpp (cmp a b);
  cmp_lt_trans : forall a b c, cmp a b = Lt -> cmp b c = Lt -> cmp a c = Lt;
  cmp_eq_l : forall a b c, cmp a b = Eq -> cmp a c = cmp b c
}.

(** A number as a triple of integers that compare, one after the other,
    as the numbers do: the sign class, then exponent and mantissa, both
    negated for a negative number. *)
Definition float_key (x : float) : Z * (Z * Z) :=
  match Prim2SF x with
  | S754_infinity true => (-2, (0, 0))%Z
  | S754_finite true m e => (-1, (- e, Z.neg m))%Z
  | S754_zero _ | S754_nan => (0, (0, 0))%Z
  | S754_finite false m e => (1, (e, Z.pos m))%Z
  | S754_infinity false => (2, (0, 0))%Z
  end.

Definition key_order (a b : Z * (Z * Z)) : comparison :=
  lex (Z.compare (fst a) (fst b))
      (lex (Z.compare (fst (snd a)) (fst (snd b)))
           (Z.compare (snd (snd a)) (snd (snd b)))).

(** A cell of the [Sector] column as a tuple that compares as the cell
    does: its kind, then its number, then its text. *)
Definition sector_key (v : value) : Z * ((Z * (Z * Z)) * string) :=
  match sector_cell v with
  | Number x => (0%Z, (float_key x, ""))
  | Text s => (1%Z, ((0, (0, 0))%Z, s))
  | Missing => (2%Z, ((0, (0, 0))%Z, ""))
  end.

(** [a] is not after [b] in the order of [cmp]. *)
Definition not_after {A : Type} (cmp : A -> A -> comparison) (a b : A) : Prop :=
  cmp a b <> Gt.

(** The order of the sort key as a relation. *)
Definition key_le (a b : metrics) : Prop := key_leb a b = true.

(** ** Chunks, sector groups and the balance history *)

(** [MAX_TICKERS_PER_CHART]. *)
Definition MAX_TICKERS_PER_CHART : Z := 10.

(** [range(0, n, step)]: a step of zero is refused, a negative step
    gives nothing to iterate over. *)
Definition range_from_zero (n : nat) (step : Z) : result (list nat) :=
  if (step =? 0)%Z then Raise ValueError
  else if (step <? 0)%Z then Ok []
  else
    let s := Z.to_nat step in
    Ok (map (fun k => k * s) (seq 0 ((n + s - 1) / s))).

(** [chunk_df(df, size)] on the rows of a table:
<<
    if df.empty:
        return []
    return [df.iloc[i:i+size] for i in range(0, len(df), size)]
>> *)
Definition chunk_df {A : Type} (df : list A) (size : Z) : result (list (list A)) :=
  match df with
  | [] => Ok []
  | _ :: _ =>
      starts ← range_from_zero (length df) size;
      Ok (map (fun i => take (Z.to_nat size) (drop i df)) starts)
  end.

#[global] Instance float_eq_dec : EqDecision float.
Proof.
  intros x y. destruct (PrimFloat.Leibniz.eqb x y) eqn:E.
  - left. apply Leibniz.eqb_spec. exact E.
  - right. intros H. apply Leibniz.eqb_spec in H. congruence.
Defined.

#[global] Instance value_eq_dec : EqDecision value.
Proof. solve_decision. Defined.

(** [Series.unique()]: the distinct cells in the order of their first
    appearance. *)
Fixpoint unique (cells : list value) : list value :=
  match cells with
  | [] => []
  | x :: rest => x :: List.filter (fun y => negb (bool_decide (y = x))) (unique rest)
  end.

(** One cell of [df["Sector"] == sec]: two texts or two numbers are
    compared, and a comparison that involves [None] is false. *)
Definition cell_eq (a b : value) : bool :=
  match a, b with
  | VStr s, VStr t => String.eqb s t
  | VNum x, VNum y => (x =? y)%float
  | _, _ => false
  end.

(** The loop over the sectors of the ordered table:
<<
    sectors_ordered = df["Sector"].unique()
    for sec in sectors_ordered:
        sec_df = df[df["Sector"] == sec]
        if sec_df.empty:
            continue
        ...
>>
    as the list of the sectors visited with the rows of each. *)
Definition sector_rows (df : list metrics) (sec : value) : list metrics :=
  List.filter (fun r => cell_eq (Sector r) sec) df.

Definition sector_groups (df : list metrics) : list (value * list metrics) :=
  List.filter (fun g => match snd g with [] => false | _ :: _ => true end)
    (map (fun sec => (sec, sector_rows df sec)) (unique (map Sector df))).

(** A cell that holds a text. *)
Definition textual (v : value) : bool :=
  match v with
  | VStr _ => true
  | _ => false
  end.

(** The records the sample provider yields for four tickers, and a copy
    of a record under another ticker and sector. *)
Definition datos_demo : list metrics :=
  match analizar_demo ["XOM"; "MSFT"; "ACME"; "AAPL"] with
  | Ok st => datos st
  | _ => []
  end.

Definition relabel (d : metrics) (tk : string) (sector : value) : metrics :=
  {| Ticker := tk; Nombre := Nombre d; Pais := Pais d; Industria := Industria d;
     Sector := sector; Precio := Precio d; PE := PE d; PB := PB d; PFCF := PFCF d;
     DividendYield := DividendYield d; PayoutRatio := PayoutRatio d;
     ROA := ROA d; ROE := ROE d; CurrentRatio := CurrentRatio d;
     QuickRatio := QuickRatio d; DebtEq := DebtEq d; LtDebtEq := LtDebtEq d;
     OperMargin := OperMargin d; ProfitMargin := ProfitMargin d;
     WACC := WACC d; ROIC := ROIC d; CreacionValor := CreacionValor d;
     RevenueGrowth := RevenueGrowth d; EPSGrowth := EPSGrowth d;
     FCFGrowth := FCFGrowth d; MarketCap := MarketCap d |}.

Definition datos_sin_sector : list metrics :=
  match datos_demo with
  | d :: _ => relabel d "NADA" VNone :: datos_demo
  | [] => []
  end.

(** Records whose sectors are texts, numbers and [None]. *)
Definition datos_mixtos : list metrics :=
  match datos_demo with
  | d :: _ =>
      [relabel d "Z1" (VStr "Zeta"); relabel d "N5" (VNum 5); relabel d "M1" VNone;
       relabel d "T1" (VStr "Technology"); relabel d "N3" (VNum 3);
       relabel d "A1" (VStr "Alpha")]
  | [] => []
  end.

(** A provider whose [info] holds the key "beta" with the value [None]. *)
Definition yf_sin_beta (tk : string) : download :=
  Data (company [("beta", SNone); ("sector", SStr "Energy");
                 ("marketCap", SNum 500%float)]
                [100%float; 90%float]).

(** A company whose free cash flow stayed at 50 while its operating cash
    flow went from 60 to 90. *)
Definition flat_fcf : raw :=
  let base := company [("sector", SStr "Energy"); ("marketCap", SNum 500%float)]
                      [100%float; 90%float] in
  {| info := info base;
     balance_sheet := balance_sheet base;
     financials := financials base;
     cashflow :=
       statement (take 2 years)
         [("Free Cash Flow", [50%float; 50%float]);
          ("Operating Cash Flow", [90%float; 60%float])] |}.

Definition yf_flat_fcf (tk : string) : download := Data flat_fcf.

(** A balance sheet over five years that names its assets and its equity
    but has no row under either alias of the liabilities. *)
Definition balance_five_years : DataFrame :=
  statement years
    [("Total Assets", [500%float; 480%float; 450%float; 400%float; 390%float]);
     ("Stockholders Equity", [250%float; 240%float; 200%float; 190%float; 180%float])].

Definition yf_history (tk : string) : download :=
  Data {| info := ∅;
          balance_sheet := balance_five_years;
          financials := empty_statement;
          cashflow := empty_statement |}.

(** An [info] entry that is a number when it is there at all. *)
Definition numeric_or_absent (i : gmap string scalar) (key : string) : Prop :=
  i !! key = None \/ exists x : float, i !! key = Some (SNum x).

(** A statement table with at least one period in which every line item
    has a value in some period. *)
Definition filled (df : DataFrame) : Prop :=
  columns df <> [] /\
  forall (k : string) (row : list float), rows df !! k = Some row -> dropna row <> [].

(** Data under which the builder meets no surprise. *)
Definition complete (r : raw) : Prop :=
  numeric_or_absent (info r) "beta" /\
  numeric_or_absent (info r) "marketCap" /\
  numeric_or_absent (info r) "totalDebt" /\
  numeric_or_absent (info r) "sharesOutstanding" /\
  (exists x : float, info r !! "currentPrice" = Some (SNum x)) /\
  filled (balance_sheet r) /\ filled (financials r) /\ filled (cashflow r).

(** ** The tickers entered

    Python's [strip] and [upper] work on code points; the functions below
    work on the bytes of the text and agree with them on ASCII text, which
    is what the properties are stated for. *)

(** The comma. *)
Definition comma : Ascii.ascii := Ascii.ascii_of_N 44.

(** [str.isspace] on an ASCII character: tab to carriage return, the four
    separators 28 to 31, and the space. *)
Definition is_space (c : Ascii.ascii) : bool :=
  let n := Ascii.N_of_ascii c in
  ((9 <=? n) && (n <=? 13) || (28 <=? n) && (n <=? 32))%N.

Definition is_lower (c : Ascii.ascii) : bool :=
  let n := Ascii.N_of_ascii c in ((97 <=? n) && (n <=? 122))%N.

(** [str.upper] on an ASCII character. *)
Definition upper_char (c : Ascii.ascii) : Ascii.ascii :=
  if is_lower c then Ascii.ascii_of_N (Ascii.N_of_ascii c - 32) else c.

Fixpoint lstrip (l : list Ascii.ascii) : list Ascii.ascii :=
  match l with
  | c :: rest => if is_space c then lstrip rest else l
  | [] => []
  end.

Definition rstrip (l : list Ascii.ascii) : list Ascii.ascii := rev (lstrip (rev l)).

(** [t.strip()]. *)
Definition strip (l : list Ascii.ascii) : list Ascii.ascii := rstrip (lstrip l).

(** [t_in.split(",")]: the pieces between the commas, at least one. *)
Fixpoint split_comma (l : list Ascii.ascii) : list (list Ascii.ascii) :=
  match l with
  | [] => [[]]
  | c :: rest =>
      if Ascii.eqb c comma then [] :: split_comma rest
      else
        match split_comma rest with
        | piece :: pieces => (c :: piece) :: pieces
        | [] => [[c]]
        end
  end.

(** [[t.strip().upper() for t in t_in.split(",") if t.strip()][:max_t]]. *)
Definition entered_tickers (t_in : string) (max_t : nat) : list string :=
  take max_t
    (map (fun t => string_of_list_ascii (map upper_char (strip t)))
       (List.filter (fun t => match strip t with [] => false | _ :: _ => true end)
          (split_comma (list_ascii_of_string t_in)))).

(** A text of ASCII characters only. *)
Definition ascii_text (s : string) : Prop :=
  Forall (fun c => (Ascii.N_of_ascii c < 128)%N) (list_ascii_of_string s).

(** A ticker as the provider is asked for it: not empty, without comma or
    lower-case letter, and without white space at either end. *)
Definition tidy (t : string) : Prop :=
  let l := list_ascii_of_string t in
  l <> [] /\
  Forall (fun c => c <> comma /\ is_lower c = false) l /\
  (forall c, head l = Some c -> is_space c = false) /\
  (forall c, last l = Some c -> is_space c = false).

(** A ticker symbol: not empty, of ASCII characters, and without comma,
    white space or lower-case letter. *)
Definition symbol (t : string) : Prop :=
  let l := list_ascii_of_string t in
  l <> [] /\
  Forall (fun c => (Ascii.N_of_ascii c < 128)%N /\
                   c <> comma /\ is_space c = false /\ is_lower c = false) l.

(** [bs.iloc[:, :4] if bs.shape[1] >= 4 else bs]. *)
Definition recent (bs : DataFrame) : DataFrame :=
  if (4 <=? length (columns bs))%nat then
    {| columns := take 4 (columns bs); rows := take 4 <$> rows bs |}
  else bs.

(** [bs.empty]: no period or no line item. *)
Definition frame_empty (bs : DataFrame) : bool :=
  match columns bs with
  | [] => true
  | _ :: _ => bool_decide (rows bs = ∅)
  end.

Section History.

Variable yf : string -> download.

(** [strftime('%Y')] on a period label. The labels of a statement table
    are the dates the provider delivers, on which [strftime] returns. *)
Variable year : string -> string.

(** The body of the [try] block of [obtener_datos_balance_historico]:
<<
    bs = yf.Ticker(ticker).balance_sheet
    if bs is None or bs.empty:
        return None, None, None, None
    bs_recent = bs.iloc[:, :4] if bs.shape[1] >= 4 else bs
    activos = seek_row(bs_recent, ["Total Assets", "TotalAssets"])
    pasivos = seek_row(bs_recent, ["Total Liabilities", "TotalLiab"])
    patrimonio = seek_row(bs_recent, ["Total Stockholder Equity", "Stockholders Equity"])
    years = bs_recent.columns.strftime('%Y')
    return activos, pasivos, patrimonio, years
>>
    [None] stands for the four [None]s. *)
Definition historico (ticker : string)
  : result (option (value * value * value * list string)) :=
  tkr ← fetch (yf ticker);
  let bs := balance_sheet tkr in
  if frame_empty bs then Ok None
  else
    let bs_recent := recent bs in
    activos ← seek_row bs_recent ["Total Assets"; "TotalAssets"];
    pasivos ← seek_row bs_recent ["Total Liabilities"; "TotalLiab"];
    patrimonio ← seek_row bs_recent ["Total Stockholder Equity"; "Stockholders Equity"];
    let years := map year (columns bs_recent) in
    Ok (Some (activos, pasivos, patrimonio, years)).

(** [obtener_datos_balance_historico(ticker)]: the body above inside
<<
    try: ...
    except Exception as e:
        st.warning(f"Error obteniendo datos históricos para {ticker}: {str(e)}")
        return None, None, None, None
>>
    with the warnings put on the screen as second component. *)
Definition obtener_datos_balance_historico (ticker : string)
  : result (option (value * value * value * list string) * list string) :=
  match historico ticker with
  | Ok r => Ok (r, [])
  | Raise e =>
      Ok (None, ["Error obteniendo datos históricos para " ++ ticker ++ ": " ++ describe e])
  | Outside => Outside
  end.

End History.

(** * Properties *)

(** ** Floats *)

(** Adding the integer [0] of [x or 0] does not change whether a number
    is zero. *)
Lemma is_zero_add_0_l (x : float) : is_zero (0 + x) = is_zero x.
Proof.
  unfold is_zero. rewrite !FloatAxioms.eqb_spec, FloatAxioms.add_spec.
  change (Prim2SF 0) with (S754_zero false).
  destruct (Prim2SF x) as [s | s | | s m e]; try reflexivity.
  destruct s; reflexivity.
Qed.

Lemma is_zero_add_0_r (x : float) : is_zero (x + 0) = is_zero x.
Proof.
  unfold is_zero. rewrite !FloatAxioms.eqb_spec, FloatAxioms.add_spec.
  change (Prim2SF 0) with (S754_zero false).
  destruct (Prim2SF x) as [s | s | | s m e]; try reflexivity.
  destruct s; reflexivity.
Qed.

(** ** Truth values and the lazy connectives *)

Lemma truth_num (x : float) : truth (VNum x) = Ok (negb (is_zero x)).
Proof. reflexivity. Qed.

Lemma py_or_none (b : result value) : py_or VNone b = b.
Proof. reflexivity. Qed.

Lemma py_or_num (x : float) (b : result value) :
  py_or (VNum x) b = if is_zero x then b else Ok (VNum x).
Proof. unfold py_or. simpl. destruct (is_zero x); reflexivity. Qed.

(** ** Cost of debt *)

(** C4. With a debt of zero (or no debt figure at all) [calc_kd] returns
    the number 0 whatever the interest expense is, so neither [None] nor an
    exception; with a debt that is a non-zero number it returns the
    quotient interest / debt. *)
Theorem calc_kd_zero_debt_or_quotient :
  (forall (interest : value) (d : float),
      is_zero d = true -> calc_kd interest (VNum d) = Ok (VNum 0)) /\
  (forall interest : value, calc_kd interest VNone = Ok (VNum 0)) /\
  (forall i d : float,
      is_zero d = false -> calc_kd (VNum i) (VNum d) = Ok (VNum (i / d))).
Proof.
  repeat split.
  - intros interest d Hd. unfold calc_kd. rewrite truth_num, Hd. reflexivity.
  - intros i d Hd. unfold calc_kd. rewrite truth_num, Hd. reflexivity.
Qed.

(** The interest of 5 on a debt of 0 costs 0, and on a debt of 100 it
    costs 5/100. *)
Lemma calc_kd_zero_debt_or_quotient_witness :
  calc_kd (VNum 5) (VNum 0) = Ok (VNum 0) /\
  calc_kd (VNum 5) (VNum 100) = Ok (VNum (5 / 100)).
Proof.
  destruct calc_kd_zero_debt_or_quotient as (Hzero & _ & Hquot).
  split; [apply Hzero | apply Hquot]; reflexivity.
Defined.

(** ** Effective tax rate *)

(** C6. When earnings before tax are zero the effective tax rate is the
    default the caller supplied, whatever the tax expense is; when they are
    a non-zero number it is the quotient tax expense / earnings before
    tax. *)
Theorem tax_rate_quotient_or_default :
  (forall (tax_exp : value) (ebt Tc_def : float),
      is_zero ebt = true -> tax_rate tax_exp (VNum ebt) Tc_def = Ok (VNum Tc_def)) /\
  (forall tax_exp ebt Tc_def : float,
      is_zero ebt = false ->
      tax_rate (VNum tax_exp) (VNum ebt) Tc_def = Ok (VNum (tax_exp / ebt))).
Proof.
  split; intros tax_exp ebt Tc_def Hebt; unfold tax_rate;
    rewrite truth_num, Hebt; reflexivity.
Qed.

Lemma tax_rate_quotient_or_default_witness :
  tax_rate (VNum 20) (VNum 0) 0.25 = Ok (VNum 0.25) /\
  tax_rate (VNum 20) (VNum 80) 0.5 = Ok (VNum (20 / 80)).
Proof.
  destruct tax_rate_quotient_or_default as (Hdefault & Hquot).
  split; [apply Hdefault | apply Hquot]; reflexivity.
Defined.

(** ** Arithmetic on numbers *)

Lemma arith_num (op : float -> float -> float) (x y : float) :
  arith op (VNum x) (VNum y) = Ok (VNum (op x y)).
Proof. reflexivity. Qed.

(** ** Weighted average cost of capital *)

Lemma is_zero_spec (x : float) :
  is_zero x = match Prim2SF x with S754_zero _ => true | _ => false end.
Proof.
  unfold is_zero. rewrite FloatAxioms.eqb_spec.
  change (Prim2SF 0) with (S754_zero false).
  destruct (Prim2SF x) as [s | s | | s m e]; try reflexivity;
    destruct s; reflexivity.
Qed.

(** When the total [(mcap or 0) + (debt or 0)] is not zero it is the plain
    sum of the two numbers. *)
Lemma total_capital_sum (E D : float) :
  is_zero (or_zero E + or_zero D) = false ->
  (or_zero E + or_zero D)%float = (E + D)%float.
Proof.
  intros H. apply Prim2SF_inj. rewrite is_zero_spec in H.
  rewrite !FloatAxioms.add_spec in *.
  unfold or_zero in *. rewrite !(is_zero_spec E), !(is_zero_spec D) in *.
  destruct (Prim2SF E) as [s | s | | s m e] eqn:HE;
    destruct (Prim2SF D) as [s' | s' | | s' m' e'] eqn:HD;
    rewrite ?HE, ?HD in *; try reflexivity; try discriminate;
    change (Prim2SF 0) with (S754_zero false) in *;
    try reflexivity; try discriminate.
Qed.

Lemma py_or_zero (x : float) :
  py_or (VNum x) (Ok (VNum 0)) = Ok (VNum (or_zero x)).
Proof. rewrite py_or_num. unfold or_zero. destruct (is_zero x); reflexivity. Qed.

Lemma py_or_zero_falsy (o : option float) :
  none_or_zero o = true -> py_or (number_or_none o) (Ok (VNum 0)) = Ok (VNum 0).
Proof.
  destruct o as [x |]; simpl; intros H; [| reflexivity].
  rewrite py_or_zero. unfold or_zero. rewrite H. reflexivity.
Qed.

(** With equity and debt both zero or unavailable there is no capital to
    weigh and [calc_wacc] returns [None], whatever the rates are. *)
Lemma calc_wacc_no_capital (mcap debt : option float) (ke kd t : value) :
  none_or_zero mcap = true -> none_or_zero debt = true ->
  calc_wacc (number_or_none mcap) (number_or_none debt) ke kd t = Ok VNone.
Proof.
  intros He Hd. unfold calc_wacc.
  rewrite (py_or_zero_falsy mcap He), (py_or_zero_falsy debt Hd).
  reflexivity.
Qed.

(** With equity [E] and debt [D] both numbers, [calc_wacc] returns [None]
    when the total is zero and the weighted formula otherwise. *)
Lemma calc_wacc_weighted (E D ke kd t : float) :
  calc_wacc (VNum E) (VNum D) (VNum ke) (VNum kd) (VNum t) =
  if is_zero (or_zero E + or_zero D) then Ok VNone
  else Ok (VNum (E / (E + D) * ke + D / (E + D) * kd * (1 - t))).
Proof.
  unfold calc_wacc. rewrite !py_or_zero. simpl.
  destruct (is_zero (or_zero E + or_zero D)) eqn:Htotal; simpl; [reflexivity |].
  rewrite (total_capital_sum E D Htotal). reflexivity.
Qed.

(** C10. With exactly one of equity and debt missing and the other a
    non-zero number, the total is not zero and the division of [None] by it
    raises [TypeError]: [calc_wacc] returns neither a number nor [None]. *)
Theorem calc_wacc_one_side_missing (x ke kd t : float) :
  is_zero x = false ->
  calc_wacc VNone (VNum x) (VNum ke) (VNum kd) (VNum t) = Raise TypeError /\
  calc_wacc (VNum x) VNone (VNum ke) (VNum kd) (VNum t) = Raise TypeError.
Proof.
  intros Hx. unfold calc_wacc. rewrite py_or_none, py_or_num, Hx. simpl.
  rewrite is_zero_add_0_l, is_zero_add_0_r, Hx. split; reflexivity.
Qed.

(** A missing market capitalisation beside a debt of 100, and the other
    way round. *)
Lemma calc_wacc_one_side_missing_witness :
  is_zero 100 = false /\
  calc_wacc VNone (VNum 100) (VNum 0.125) (VNum 0.0625) (VNum 0.25) = Raise TypeError /\
  calc_wacc (VNum 100) VNone (VNum 0.125) (VNum 0.0625) (VNum 0.25) = Raise TypeError.
Proof.
  split; [reflexivity |].
  apply (calc_wacc_one_side_missing 100 0.125 0.0625 0.25). reflexivity.
Defined.

(** C5, at the input where the code departs from it: the market
    capitalisation is missing and the debt is 100, so the capital is not
    zero, and still no weighted cost comes back. *)
Theorem calc_wacc_missing_equity_fails :
  none_or_zero None = true /\ none_or_zero (Some 100%float) = false /\
  calc_wacc (number_or_none None) (number_or_none (Some 100%float))
            (VNum 0.125) (VNum 0.0625) (VNum 0.25) = Raise TypeError.
Proof. repeat split. Qed.

(** ** Scalar extractor *)

Lemma dropna_missing_prefix (pre : list float) (x : float) (post : list float) :
  Forall (fun c => is_nan c = true) pre -> is_nan x = false ->
  dropna (pre ++ x :: post) = x :: dropna post.
Proof.
  intros Hpre Hx. induction Hpre as [| c pre Hc _ IH]; unfold dropna; simpl.
  - rewrite Hx. reflexivity.
  - rewrite Hc. simpl. exact IH.
Qed.

Lemma dropna_all_missing (cells : list float) :
  Forall (fun c => is_nan c = true) cells -> dropna cells = [].
Proof.
  intros H. induction H as [| c cells Hc _ IH]; unfold dropna; simpl.
  - reflexivity.
  - rewrite Hc. simpl. exact IH.
Qed.

(** A row with a first non-missing cell [x] gives [x]; a scalar passes
    through, [None] as [None]. *)
Lemma safe_first_present (pre : list float) (x : float) (post : list float) :
  Forall (fun c => is_nan c = true) pre -> is_nan x = false ->
  safe_first (VSeries (pre ++ x :: post)) = VNum x.
Proof.
  intros Hpre Hx. unfold safe_first.
  rewrite (dropna_missing_prefix pre x post Hpre Hx). reflexivity.
Qed.

Lemma safe_first_scalar (s : scalar) : safe_first (of_scalar s) = of_scalar s.
Proof. destruct s; reflexivity. Qed.

(** A row whose cells are all missing comes back as the emptied row
    itself: the conditional of the last line falls to its [else obj]. *)
Lemma safe_first_all_missing (cells : list float) :
  Forall (fun c => is_nan c = true) cells ->
  safe_first (VSeries cells) = VSeries [].
Proof.
  intros H. unfold safe_first. rewrite (dropna_all_missing cells H). reflexivity.
Qed.

(** C7, at the input where the code departs from it: for a row with two
    periods, both missing, [safe_first] returns an empty Series and not
    [None]; the [or] that follows in the builder then raises. *)
Theorem safe_first_row_without_values :
  safe_first (VSeries [nan; nan]) = VSeries [] /\
  safe_first (VSeries [nan; nan]) <> VNone /\
  py_or (safe_first (VSeries [nan; nan])) (Ok (VNum 0)) = Raise ValueError.
Proof. repeat split. discriminate. Qed.

(** ** Field resolver *)

(** The first alias that names a row of the table decides. *)
Lemma seek_row_first_match (df : DataFrame) (pre : list string) (k : string)
    (post : list string) (r : list float) :
  Forall (fun k' => rows df !! k' = None) pre ->
  rows df !! k = Some r ->
  seek_row df (pre ++ k :: post) = Ok (VSeries r).
Proof.
  intros Hpre Hk. induction Hpre as [| k' pre Hk' _ IH]; simpl.
  - rewrite Hk. reflexivity.
  - rewrite Hk'. exact IH.
Qed.

(** Without a matching alias the answer depends on the periods of the
    table only: the one-cell zero row when there is a period, and the
    [ValueError] of the Series constructor when there is none. *)
Lemma seek_row_no_match (df : DataFrame) (keys : list string) :
  Forall (fun k => rows df !! k = None) keys ->
  seek_row df keys =
  match columns df with
  | [] => Raise ValueError
  | _ :: _ => Ok (VSeries [0%float])
  end.
Proof.
  intros H. induction H as [| k keys Hk _ IH]; simpl.
  - reflexivity.
  - rewrite Hk. exact IH.
Qed.

(** On a table with at least one period [seek_row] returns a row. *)
Lemma seek_row_returns_row (df : DataFrame) (keys : list string) :
  columns df <> [] -> exists r : list float, seek_row df keys = Ok (VSeries r).
Proof.
  intros Hcols. induction keys as [| k keys IH]; simpl.
  - destruct (columns df); [contradiction | eauto].
  - destruct (rows df !! k) as [r |]; eauto.
Qed.

Lemma seek_row_only_B : seek_row only_B ["A"; "B"] = Ok (VSeries [7%float; 9%float]).
Proof. reflexivity. Qed.

(** C8, at the input where the code departs from it: on a table that has
    no period the zero row cannot be built and [seek_row] raises. *)
Theorem seek_row_table_without_periods :
  columns empty_statement = [] /\
  seek_row empty_statement ["Total Debt"; "Long Term Debt"] = Raise ValueError.
Proof. split; reflexivity. Qed.

(** ** The builder stays inside the model *)

Create HintDb inside discriminated.

Lemma inside_bind {A B : Type} (P : A -> Prop) (Q : B -> Prop)
    (m : result A) (k : A -> result B) :
  inside P m -> (forall a, m = Ok a -> P a -> inside Q (k a)) ->
  inside Q (m ≫= k).
Proof. destruct m as [a | e |]; simpl; auto. Qed.

Lemma inside_ok {A : Type} (P : A -> Prop) (a : A) : P a -> inside P (Ok a).
Proof. trivial. Qed.

Lemma plain_scalar (s : scalar) : plain (of_scalar s).
Proof. destruct s; exact I. Qed.

Lemma get_plain (i : gmap string scalar) (key : string) (dflt : value) :
  plain dflt -> plain (get i key dflt).
Proof. intros H. unfold get. destruct (i !! key); [apply plain_scalar | exact H]. Qed.

Lemma safe_first_plain (v : value) : plain (safe_first v).
Proof.
  destruct v as [| x | s | cells]; simpl; try exact I.
  destruct (dropna cells); exact I.
Qed.

Lemma cagr4_plain (power : float -> float -> float) (fin : DataFrame) (metric : string) :
  plain (cagr4 power fin metric).
Proof.
  unfold cagr4. destruct (rows fin !! metric) as [row |]; [| exact I].
  destruct (take 4 (dropna row)) as [| a [| b v]]; try exact I.
  destruct (is_zero _); exact I.
Qed.

Lemma truth_inside (v : value) : inside (fun _ => True) (truth v).
Proof. destruct v; exact I. Qed.

Lemma arith_inside (op : float -> float -> float) (a b : value) :
  plain a -> plain b -> inside plain (arith op a b).
Proof.
  destruct a as [| x | s | [| x xs]], b as [| y | t | [| y ys]];
    simpl; intros Ha Hb; try exact I; contradiction.
Qed.

Lemma py_or_inside (a : value) (b : result value) :
  plain a -> inside plain b -> inside plain (py_or a b).
Proof.
  intros Ha Hb. unfold py_or. destruct a as [| x | s | cells]; simpl; try exact I.
  - exact Hb.
  - destruct (is_zero x); simpl; [exact Hb | exact I].
  - destruct (String.eqb s ""); simpl; [exact Hb | exact I].
Qed.

Lemma py_and_inside (a : value) (b : result value) :
  plain a -> inside plain b -> inside plain (py_and a b).
Proof.
  intros Ha Hb. unfold py_and. destruct a as [| x | s | cells]; simpl; try exact I.
  - destruct (is_zero x); simpl; [exact I | exact Hb].
  - destruct (String.eqb s ""); simpl; [exact I | exact Hb].
Qed.

Lemma seek_row_inside (df : DataFrame) (keys : list string) :
  inside (fun _ => True) (seek_row df keys).
Proof.
  induction keys as [| k keys IH]; simpl.
  - destruct (columns df); exact I.
  - destruct (rows df !! k); [exact I | exact IH].
Qed.

Lemma fetch_inside (d : download) : inside (fun _ => True) (fetch d).
Proof. destruct d; exact I. Qed.

Lemma py_add_inside (a b : value) : plain a -> plain b -> inside plain (py_add a b).
Proof.
  intros Ha Hb. pose proof (arith_inside PrimFloat.add a b Ha Hb) as H.
  destruct a, b; try exact H; exact I.
Qed.

Lemma py_sub_inside (a b : value) : plain a -> plain b -> inside plain (py_sub a b).
Proof. apply arith_inside. Qed.

Lemma py_mul_inside (a b : value) : plain a -> plain b -> inside plain (py_mul a b).
Proof. apply arith_inside. Qed.

Lemma py_div_inside (a b : value) : plain a -> plain b -> inside plain (py_div a b).
Proof. apply arith_inside. Qed.

#[local] Hint Resolve inside_ok plain_scalar get_plain safe_first_plain cagr4_plain
  truth_inside py_add_inside py_sub_inside py_mul_inside py_div_inside
  py_or_inside py_and_inside seek_row_inside fetch_inside : inside.
#[local] Hint Extern 1 (plain _) => exact I : inside.

(** One step through a sequence of bindings. *)
Ltac inside_step :=
  eapply inside_bind; [solve [eauto 10 with inside] | intros ? ? ?].

Lemma calc_ke_inside (Rf Rm : float) (beta : value) :
  plain beta -> inside plain (calc_ke Rf Rm beta).
Proof. intros H. unfold calc_ke. inside_step. eauto with inside. Qed.

Lemma calc_kd_inside (interest debt : value) :
  plain interest -> plain debt -> inside plain (calc_kd interest debt).
Proof.
  intros Hi Hd. unfold calc_kd. inside_step.
  destruct a; eauto with inside.
Qed.

Lemma tax_rate_inside (tax_exp ebt : value) (Tc_def : float) :
  plain tax_exp -> plain ebt -> inside plain (tax_rate tax_exp ebt Tc_def).
Proof.
  intros Ht He. unfold tax_rate. inside_step.
  destruct a; eauto with inside.
Qed.

Lemma calc_wacc_inside (mcap debt ke kd t : value) :
  plain mcap -> plain debt -> plain ke -> plain kd -> plain t ->
  inside plain (calc_wacc mcap debt ke kd t).
Proof.
  intros Hm Hd Hke Hkd Ht.
  unfold calc_wacc.
  do 4 inside_step. destruct a2; [| exact I].
  do 6 inside_step. eauto with inside.
Qed.

Lemma calc_nopat_inside (ebit tax : value) :
  plain ebit -> plain tax -> inside plain (calc_nopat ebit tax).
Proof.
  intros He Ht. unfold calc_nopat.
  destruct (is_not_none ebit); [| exact I].
  inside_step. eauto with inside.
Qed.

Lemma calc_invested_inside (equity debt cash : value) :
  plain equity -> plain debt -> plain cash ->
  inside plain (calc_invested equity debt cash).
Proof.
  intros He Hd Hc. unfold calc_invested.
  do 4 inside_step. eauto with inside.
Qed.

Lemma calc_roic_inside (nopat invested : value) :
  plain nopat -> plain invested -> inside plain (calc_roic nopat invested).
Proof.
  intros Hn Hi. unfold calc_roic.
  eapply inside_bind with (P := fun _ => True).
  - destruct (is_not_none nopat); eauto with inside.
  - intros [|] _ _; eauto with inside.
Qed.

Lemma creacion_valor_inside (roic wacc : value) :
  plain roic -> plain wacc -> inside plain (creacion_valor roic wacc).
Proof.
  intros Hr Hw. unfold creacion_valor.
  destruct (is_not_none roic && is_not_none wacc); [| exact I].
  inside_step. eauto with inside.
Qed.

Lemma calc_pfcf_inside (price fcf shares : value) :
  plain price -> plain fcf -> plain shares ->
  inside plain (calc_pfcf price fcf shares).
Proof.
  intros Hp Hf Hs. unfold calc_pfcf.
  do 2 inside_step. destruct a0; [| exact I].
  inside_step. eauto with inside.
Qed.

#[local] Hint Resolve calc_ke_inside calc_kd_inside tax_rate_inside
  calc_wacc_inside calc_nopat_inside calc_invested_inside calc_roic_inside
  creacion_valor_inside calc_pfcf_inside : inside.

(** The body of the builder ends with an exception or with a record: it
    never needs the alignment of two non-empty Series. The record carries
    the ticker it was built for, and its spread is the one computed from
    its own ROIC and WACC. *)
Lemma construir_inside (Rf Rm : float) (power : float -> float -> float)
    (yf : string -> download) (tk : string) (Tc_def : float) :
  inside (fun d => Ticker d = tk /\
                   creacion_valor (ROIC d) (WACC d) = Ok (CreacionValor d))
         (construir Rf Rm power yf tk Tc_def).
Proof.
  unfold construir. cbv zeta.
  repeat inside_step. simpl. split; [reflexivity | assumption].
Qed.

Lemma construir_ticker (Rf Rm : float) (power : float -> float -> float)
    (yf : string -> download) (tk : string) (Tc_def : float) (d : metrics) :
  construir Rf Rm power yf tk Tc_def = Ok d -> Ticker d = tk.
Proof.
  intros H. pose proof (construir_inside Rf Rm power yf tk Tc_def) as Hin.
  rewrite H in Hin. apply Hin.
Qed.

(** ** Value-creation spread *)

Lemma arith_ok_not_none (op : float -> float -> float) (a b v : value) :
  arith op a b = Ok v -> v <> VNone.
Proof.
  destruct a as [| x | s | [| x xs]], b as [| y | t | [| y ys]]; simpl;
    intros H; try discriminate H;
    repeat match type of H with
           | ?m ≫= _ = _ => destruct m; simpl in H
           end;
    try discriminate H; injection H as <-; discriminate.
Qed.

(** Whatever the two values are, a spread that is computed is [None]
    exactly when one of them is. *)
Lemma is_not_none_false (v : value) : is_not_none v = false -> v = VNone.
Proof. destruct v; simpl; intros H; [reflexivity | discriminate ..]. Qed.

Lemma is_not_none_true (v : value) : is_not_none v = true -> v <> VNone.
Proof. intros H ->. discriminate H. Qed.

Lemma creacion_valor_none_iff (roic wacc v : value) :
  creacion_valor roic wacc = Ok v ->
  (v <> VNone <-> roic <> VNone /\ wacc <> VNone).
Proof.
  unfold creacion_valor.
  destruct (is_not_none roic) eqn:Hr, (is_not_none wacc) eqn:Hw; simpl; intros H.
  - split; [intros _ | intros _].
    + split; apply is_not_none_true; assumption.
    + destruct (py_sub roic wacc) as [d | |]; simpl in H; try discriminate H.
      exact (arith_ok_not_none _ _ _ _ H).
  - injection H as <-. apply is_not_none_false in Hw.
    split; [intros Hv | intros [_ Hv]]; exfalso; apply Hv; [reflexivity | exact Hw].
  - injection H as <-. apply is_not_none_false in Hr.
    split; [intros Hv | intros [Hv _]]; exfalso; apply Hv; [reflexivity | exact Hr].
  - injection H as <-. apply is_not_none_false in Hr.
    split; [intros Hv | intros [Hv _]]; exfalso; apply Hv; [reflexivity | exact Hr].
Qed.

(** C1. For ROIC and WACC that are each a number or [None], the spread is
    computed without error; it is a number exactly when both inputs are,
    and then it is (ROIC - WACC) * 100. In every record the builder
    returns, the spread is the one computed from the ROIC and the WACC of
    that record, and it is [None] exactly when one of the two is. *)
Theorem creacion_valor_available_iff :
  (forall roic wacc : option float,
      exists v : value,
        creacion_valor (number_or_none roic) (number_or_none wacc) = Ok v /\
        (v <> VNone <-> roic <> None /\ wacc <> None) /\
        (forall r w : float,
            roic = Some r -> wacc = Some w -> v = VNum ((r - w) * 100))) /\
  (forall (Rf Rm : float) (power : float -> float -> float)
          (yf : string -> download) (tk : string) (Tc_def : float) (d : metrics),
      construir Rf Rm power yf tk Tc_def = Ok d ->
      creacion_valor (ROIC d) (WACC d) = Ok (CreacionValor d) /\
      (CreacionValor d <> VNone <-> ROIC d <> VNone /\ WACC d <> VNone)).
Proof.
  split.
  - intros [r |] [w |]; simpl.
    + exists (VNum ((r - w) * 100)). split; [reflexivity |]. split; [split |].
      * intros _. split; discriminate.
      * intros _. discriminate.
      * intros r' w' Hr Hw. injection Hr as <-. injection Hw as <-. reflexivity.
    + exists VNone. split; [reflexivity |]. split; [split |].
      * intros H. exfalso. apply H. reflexivity.
      * intros [_ H]. exfalso. apply H. reflexivity.
      * intros r' w' _ Hw. discriminate Hw.
    + exists VNone. split; [reflexivity |]. split; [split |].
      * intros H. exfalso. apply H. reflexivity.
      * intros [H _]. exfalso. apply H. reflexivity.
      * intros r' w' Hr _. discriminate Hr.
    + exists VNone. split; [reflexivity |]. split; [split |].
      * intros H. exfalso. apply H. reflexivity.
      * intros [H _]. exfalso. apply H. reflexivity.
      * intros r' w' Hr _. discriminate Hr.
  - intros Rf Rm power yf tk Tc_def d Hd.
    pose proof (construir_inside Rf Rm power yf tk Tc_def) as Hin.
    rewrite Hd in Hin. destruct Hin as [_ Hspread].
    split; [exact Hspread |]. apply creacion_valor_none_iff, Hspread.
Qed.

(** MSFT in the sample: a ROIC of 0.25 over a WACC near 0.0617. *)
Lemma creacion_valor_available_iff_witness :
  exists d : metrics,
    construir_demo "MSFT" = Ok d /\ ROIC d = VNum 0.25 /\
    creacion_valor (ROIC d) (WACC d) = Ok (CreacionValor d) /\
    (CreacionValor d <> VNone <-> ROIC d <> VNone /\ WACC d <> VNone).
Proof.
  destruct (construir_demo "MSFT") as [d | |] eqn:Hd; try discriminate Hd.
  exists d. split; [reflexivity |].
  split; [injection Hd as <-; reflexivity |].
  destruct creacion_valor_available_iff as [_ Hrecord].
  exact (Hrecord _ _ _ _ _ _ d Hd).
Defined.

(** ** The batch loop *)

Section Batch.

Variables Rf Rm : float.
Variable power : float -> float -> float.
Variable yf : string -> download.
Variable Tc0 : float.

(** [obtener_datos_financieros] catches every exception of its body, so
    the [except] branch of the loop in [main] is never taken. *)
Lemma obtener_never_raises (tk : string) (e : exn) :
  obtener_datos_financieros Rf Rm power yf tk Tc0 <> Raise e.
Proof.
  unfold obtener_datos_financieros.
  destruct (construir Rf Rm power yf tk Tc0); discriminate.
Qed.

(** One iteration appends the record of a ticker that could be built and
    the message of one that could not; [errs] is left as it was. *)
Lemma procesar_outcome (st : batch) (tk : string) :
  procesar Rf Rm power yf Tc0 st tk =
  Ok {| datos := datos st ++ option_list (construido Rf Rm power yf Tc0 tk);
        errs := errs st;
        shown := shown st ++ aviso Rf Rm power yf Tc0 tk |}.
Proof.
  pose proof (construir_inside Rf Rm power yf tk Tc0) as Hin.
  unfold procesar, obtener_datos_financieros, construido, aviso.
  destruct (construir Rf Rm power yf tk Tc0) as [d | e |]; simpl.
  - rewrite app_nil_r. reflexivity.
  - rewrite app_nil_r. reflexivity.
  - contradiction.
Qed.

(** The loop runs over every ticker, whatever happened to the ones before:
    [datos] grows by the records of the tickers that could be built, in
    order, the screen by the messages of the others, and [errs] keeps
    its entries. *)
Lemma recorrer_outcome (tickers : list string) (st : batch) :
  recorrer Rf Rm power yf Tc0 st tickers =
  Ok {| datos := datos st ++ omap (construido Rf Rm power yf Tc0) tickers;
        errs := errs st;
        shown := shown st ++ concat (map (aviso Rf Rm power yf Tc0) tickers) |}.
Proof.
  revert st. induction tickers as [| tk rest IH]; intros st; simpl.
  - rewrite !app_nil_r. destruct st; reflexivity.
  - rewrite procesar_outcome. simpl. rewrite IH. simpl.
    rewrite <- !app_assoc. do 3 f_equal.
    destruct (construido Rf Rm power yf Tc0 tk); reflexivity.
Qed.

Lemma analizar_outcome (tickers : list string) :
  analizar Rf Rm power yf Tc0 tickers =
  Ok {| datos := omap (construido Rf Rm power yf Tc0) tickers;
        errs := [];
        shown := concat (map (aviso Rf Rm power yf Tc0) tickers) |}.
Proof. unfold analizar. rewrite recorrer_outcome. reflexivity. Qed.

(** A ticker whose build raises leaves no record in [datos]. *)
Lemma failed_ticker_not_in_datos (tickers : list string) (tk : string) (e : exn)
    (d : metrics) :
  construir Rf Rm power yf tk Tc0 = Raise e ->
  d ∈ omap (construido Rf Rm power yf Tc0) tickers -> Ticker d <> tk.
Proof.
  intros Hfail Hd Heq. apply list_elem_of_omap in Hd as (tk' & _ & Hbuilt).
  unfold construido in Hbuilt.
  destruct (construir Rf Rm power yf tk' Tc0) as [d' | |] eqn:Hb; try discriminate.
  injection Hbuilt as Hd'. pose proof (construir_ticker _ _ _ _ _ _ _ Hb) as Ht.
  assert (tk' = tk) as -> by congruence.
  rewrite Hfail in Hb. discriminate.
Qed.

End Batch.

(** ** Comparisons *)

Section Orderings.

Context {A : Type} (cmp : A -> A -> comparison) (Hcmp : ordering cmp).

Lemma cmp_eq_sym (a b : A) : cmp a b = Eq -> cmp b a = Eq.
Proof. intros H. rewrite (cmp_antisym cmp Hcmp a b), H. reflexivity. Qed.

Lemma cmp_eq_r (a b c : A) : cmp b c = Eq -> cmp a b = cmp a c.
Proof.
  intros H. rewrite (cmp_antisym cmp Hcmp b a), (cmp_antisym cmp Hcmp c a).
  f_equal. apply (cmp_eq_l cmp Hcmp). exact H.
Qed.

Lemma not_after_total (a b : A) : not_after cmp a b \/ not_after cmp b a.
Proof.
  unfold not_after. rewrite (cmp_antisym cmp Hcmp a b).
  destruct (cmp a b); simpl; [left | left | right]; discriminate.
Qed.

Lemma not_after_trans (a b c : A) :
  not_after cmp a b -> not_after cmp b c -> not_after cmp a c.
Proof.
  unfold not_after. intros Hab Hbc.
  destruct (cmp a b) eqn:Eab; [| | contradiction].
  - rewrite (cmp_eq_l cmp Hcmp a b c Eab). exact Hbc.
  - destruct (cmp b c) eqn:Ebc; [| | contradiction].
    + rewrite <- (cmp_eq_r a b c Ebc), Eab. discriminate.
    + rewrite (cmp_lt_trans cmp Hcmp a b c Eab Ebc). discriminate.
Qed.

(** A comparison of projected values orders the projected type. *)
Lemma ordering_on {B : Type} (f : B -> A) : ordering (fun x y => cmp (f x) (f y)).
Proof.
  split; intros.
  - apply (cmp_antisym cmp Hcmp).
  - eapply (cmp_lt_trans cmp Hcmp); eassumption.
  - apply (cmp_eq_l cmp Hcmp). assumption.
Qed.

(** Ties of one comparison broken by another. *)
Lemma ordering_lex (cmp' : A -> A -> comparison) :
  ordering cmp' -> ordering (fun x y => lex (cmp x y) (cmp' x y)).
Proof.
  intros Hcmp'. split.
  - intros a b. rewrite (cmp_antisym cmp Hcmp a b), (cmp_antisym cmp' Hcmp' a b).
    destruct (cmp a b); reflexivity.
  - intros a b c. unfold lex.
    destruct (cmp a b) eqn:Eab; try discriminate.
    + rewrite (cmp_eq_l cmp Hcmp a b c Eab).
      destruct (cmp b c) eqn:Ebc; try discriminate; [| reflexivity].
      apply (cmp_lt_trans cmp' Hcmp').
    + destruct (cmp b c) eqn:Ebc; try discriminate.
      * intros _ _. rewrite <- (cmp_eq_r a b c Ebc), Eab. reflexivity.
      * intros _ _. rewrite (cmp_lt_trans cmp Hcmp a b c Eab Ebc). reflexivity.
  - intros a b c. unfold lex.
    destruct (cmp a b) eqn:Eab; try discriminate.
    intros Eab'. rewrite (cmp_eq_l cmp Hcmp a b c Eab).
    rewrite (cmp_eq_l cmp' Hcmp' a b c Eab'). reflexivity.
Qed.

End Orderings.

Lemma ordering_Z : ordering Z.compare.
Proof.
  split.
  - intros a b. apply Z.compare_antisym.
  - intros a b c. rewrite !Z.compare_lt_iff. apply Z.lt_trans.
  - intros a b c H. apply Z.compare_eq in H. subst. reflexivity.
Qed.

Lemma ascii_compare_lt_trans (a b c : Ascii.ascii) :
  Ascii.compare a b = Lt -> Ascii.compare b c = Lt -> Ascii.compare a c = Lt.
Proof. unfold Ascii.compare. rewrite !N.compare_lt_iff. apply N.lt_trans. Qed.

Lemma string_compare_refl (s : string) : String.compare s s = Eq.
Proof.
  induction s as [| c s IH]; simpl; [reflexivity |].
  unfold Ascii.compare. rewrite N.compare_refl. exact IH.
Qed.

Lemma string_compare_lt_trans (a b c : string) :
  String.compare a b = Lt -> String.compare b c = Lt -> String.compare a c = Lt.
Proof.
  revert b c. induction a as [| x a IH]; intros [| y b] [| z c]; simpl;
    try discriminate; try reflexivity.
  destruct (Ascii.compare x y) eqn:Exy; try discriminate.
  - apply Ascii.compare_eq_iff in Exy. subst y.
    destruct (Ascii.compare x z); try discriminate; [apply IH | reflexivity].
  - intros _. destruct (Ascii.compare y z) eqn:Eyz; try discriminate.
    + apply Ascii.compare_eq_iff in Eyz. subst z. rewrite Exy. reflexivity.
    + rewrite (ascii_compare_lt_trans x y z Exy Eyz). reflexivity.
Qed.

Lemma ordering_string : ordering String.compare.
Proof.
  split.
  - intros a b. apply String.compare_antisym.
  - apply string_compare_lt_trans.
  - intros a b c H. apply String.compare_eq_iff in H. subst. reflexivity.
Qed.

(** Two comparisons that agree everywhere order alike. *)
Lemma ordering_ext {A : Type} (cmp cmp' : A -> A -> comparison) :
  (forall a b, cmp' a b = cmp a b) -> ordering cmp -> ordering cmp'.
Proof.
  intros Hext Hcmp. split; intros; rewrite ?Hext in *.
  - apply (cmp_antisym cmp Hcmp).
  - eapply (cmp_lt_trans cmp Hcmp); eassumption.
  - apply (cmp_eq_l cmp Hcmp). assumption.
Qed.

Lemma is_nan_spec (x : float) : is_nan x = false -> Prim2SF x <> S754_nan.
Proof.
  unfold is_nan. rewrite FloatAxioms.eqb_spec. intros H E. rewrite E in H. discriminate.
Qed.

(** Numbers compare as their keys do. *)
Lemma float_compare_key (x y : float) :
  is_nan x = false -> is_nan y = false ->
  float_compare x y = key_order (float_key x) (float_key y).
Proof.
  intros Hx Hy. apply is_nan_spec in Hx, Hy.
  unfold float_compare, float_key, key_order. rewrite FloatAxioms.compare_spec.
  destruct (Prim2SF x) as [[|] | [|] | | [|] m e]; try contradiction;
    destruct (Prim2SF y) as [[|] | [|] | | [|] m' e']; try contradiction;
    try reflexivity; cbn [SFcompare FloatAxioms.flatten_cmp_opt fst snd lex].
  - rewrite Z.compare_opp. change (-1 ?= -1)%Z with Eq. cbn [lex].
    rewrite (Z.compare_antisym e' e).
    destruct (e' ?= e)%Z; cbn; try reflexivity.
    fold (Pos.compare m m'). rewrite (Pos.compare_antisym m' m).
    destruct (m' ?= m)%positive; reflexivity.
  - change (1 ?= 1)%Z with Eq. cbn [lex].
    destruct (e ?= e')%Z; cbn; try reflexivity.
    fold (Pos.compare m m'). destruct (m ?= m')%positive; reflexivity.
Qed.

Lemma ordering_key_order : ordering key_order.
Proof.
  unfold key_order.
  apply (ordering_lex (fun a b => Z.compare (fst a) (fst b))).
  { apply (ordering_on Z.compare ordering_Z). }
  apply (ordering_lex (fun a b => Z.compare (fst (snd a)) (fst (snd b)))).
  { apply (ordering_on Z.compare ordering_Z). }
  apply (ordering_on Z.compare ordering_Z).
Qed.

Lemma lex_eq_r (c : comparison) : lex c Eq = c.
Proof. destruct c; reflexivity. Qed.

(** The cells of the [Sector] column compare as their keys do. *)
Lemma sector_compare_key (a b : value) :
  sector_compare a b =
  lex (Z.compare (fst (sector_key a)) (fst (sector_key b)))
      (lex (key_order (fst (snd (sector_key a))) (fst (snd (sector_key b))))
           (String.compare (snd (snd (sector_key a))) (snd (snd (sector_key b))))).
Proof.
  unfold sector_compare, sector_key.
  assert (forall x, sector_cell a = Number x -> is_nan x = false) as Ha.
  { destruct a as [| z | |]; simpl; try discriminate.
    destruct (is_nan z) eqn:E; [discriminate |]. intros x [= <-]. exact E. }
  assert (forall y, sector_cell b = Number y -> is_nan y = false) as Hb.
  { destruct b as [| z | |]; simpl; try discriminate.
    destruct (is_nan z) eqn:E; [discriminate |]. intros y [= <-]. exact E. }
  destruct (sector_cell a) as [x | s |], (sector_cell b) as [y | t |];
    cbn [fst snd]; try reflexivity.
  rewrite (float_compare_key x y (Ha x eq_refl) (Hb y eq_refl)).
  change (0 ?= 0)%Z with Eq. cbn [lex]. symmetry. apply lex_eq_r.
Qed.

Lemma ordering_sector : ordering sector_compare.
Proof.
  eapply ordering_ext; [exact sector_compare_key |].
  apply (ordering_lex (fun a b => Z.compare (fst (sector_key a)) (fst (sector_key b)))).
  { apply (ordering_on Z.compare ordering_Z). }
  apply (ordering_lex
           (fun a b => key_order (fst (snd (sector_key a))) (fst (snd (sector_key b))))).
  { apply (ordering_on key_order ordering_key_order). }
  apply (ordering_on String.compare ordering_string).
Qed.

Lemma ordering_key : ordering key_compare.
Proof.
  unfold key_compare.
  apply (ordering_lex (fun a b => Z.compare (sector_rank (Sector a)) (sector_rank (Sector b)))).
  { apply (ordering_on Z.compare ordering_Z). }
  apply (ordering_lex (fun a b => sector_compare (Sector a) (Sector b))).
  { apply (ordering_on sector_compare ordering_sector). }
  apply (ordering_on String.compare ordering_string).
Qed.

(** ** The ordered table *)

Lemma key_le_not_after (a b : metrics) : key_le a b <-> not_after key_compare a b.
Proof.
  unfold key_le, key_leb, not_after.
  destruct (key_compare a b); split; intros H; try reflexivity;
    try discriminate; contradiction.
Qed.

Lemma key_le_total (a b : metrics) : key_le a b \/ key_le b a.
Proof. rewrite !key_le_not_after. apply not_after_total, ordering_key. Qed.

Lemma key_le_trans (a b c : metrics) : key_le a b -> key_le b c -> key_le a c.
Proof. rewrite !key_le_not_after. apply not_after_trans, ordering_key. Qed.

(** The key order spelled out: rank first, then the sector, then the
    ticker. *)
Lemma key_le_lexicographic (a b : metrics) :
  key_le a b <->
  (sector_rank (Sector a) < sector_rank (Sector b))%Z \/
  (sector_rank (Sector a) = sector_rank (Sector b) /\
   (sector_compare (Sector a) (Sector b) = Lt \/
    (sector_compare (Sector a) (Sector b) = Eq /\
     String.leb (Ticker a) (Ticker b) = true))).
Proof.
  unfold key_le, key_leb, key_compare, lex, String.leb.
  destruct (Z.compare_spec (sector_rank (Sector a)) (sector_rank (Sector b)))
    as [Hr | Hr | Hr].
  - destruct (sector_compare (Sector a) (Sector b)).
    + destruct (String.compare (Ticker a) (Ticker b)); split; auto;
        intros [? | [_ [? | [_ ?]]]]; try lia; discriminate.
    + split; auto.
    + split; [discriminate |]. intros [? | [_ [? | [? _]]]]; try lia; discriminate.
  - split; auto.
  - split; [discriminate |]. intros [? | [? _]]; lia.
Qed.

Lemma insert_row_perm (x : metrics) (l : list metrics) :
  Permutation (x :: l) (insert_row x l).
Proof.
  induction l as [| y l IH]; simpl; [reflexivity |].
  destruct (key_leb x y); [reflexivity |].
  rewrite perm_swap. apply perm_skip, IH.
Qed.

Lemma sort_values_perm (df : list metrics) : Permutation df (sort_values df).
Proof.
  induction df as [| x l IH]; simpl; [reflexivity |].
  rewrite <- insert_row_perm. apply perm_skip, IH.
Qed.

Lemma insert_row_sorted (x : metrics) (l : list metrics) :
  StronglySorted key_le l -> StronglySorted key_le (insert_row x l).
Proof.
  intros Hl. induction Hl as [| y l Hl IH Hy]; simpl.
  - repeat constructor.
  - destruct (key_leb x y) eqn:Hxy.
    + constructor; [constructor; assumption |].
      constructor; [exact Hxy |].
      eapply List.Forall_impl; [| exact Hy]. intros z Hz.
      exact (key_le_trans x y z Hxy Hz).
    + constructor; [exact IH |].
      rewrite <- insert_row_perm. constructor; [| exact Hy].
      destruct (key_le_total x y) as [H | H]; [| exact H].
      unfold key_le in H. congruence.
Qed.

Lemma sort_values_sorted (df : list metrics) : StronglySorted key_le (sort_values df).
Proof.
  induction df as [| x l IH]; simpl; [constructor |].
  apply insert_row_sorted, IH.
Qed.

(** In a sorted table a row that stands before another is not after it in
    the key order. *)
Lemma sorted_before (x y : metrics) (l : list metrics) :
  StronglySorted key_le l -> before x y l -> key_le x y.
Proof.
  intros Hl (l1 & l2 & l3 & ->).
  induction l1 as [| z l1 IH]; simpl in Hl.
  - apply StronglySorted_inv in Hl as [_ Hx].
    rewrite Forall_app, Forall_cons in Hx. apply Hx.
  - apply StronglySorted_inv in Hl as [Hl _]. apply IH, Hl.
Qed.

(** A sector the table does not list ranks 99, and every listed sector
    except the entry "Unknown" itself ranks between 1 and 11. *)
Lemma sector_rank_unlisted (s : string) :
  SECTOR_RANK !! s = None -> sector_rank (VStr s) = 99%Z.
Proof. intros H. unfold sector_rank. rewrite H. reflexivity. Qed.

Lemma sector_rank_listed (s : string) (r : Z) :
  SECTOR_RANK !! s = Some r -> s <> "Unknown" -> (1 <= r <= 11)%Z.
Proof.
  intros H Hs. unfold SECTOR_RANK in H. apply elem_of_list_to_map_2 in H.
  repeat (apply elem_of_cons in H as [H | H];
          [injection H as -> ->; first [lia | contradiction] |]).
  apply elem_of_nil in H. contradiction.
Qed.

Lemma sector_compare_refl (v : value) : sector_compare v v = Eq.
Proof.
  pose proof (cmp_antisym sector_compare ordering_sector v v) as H.
  destruct (sector_compare v v); [reflexivity | discriminate | discriminate].
Qed.

(** A cell that is no key of [SECTOR_RANK], a text the table does not
    list or a cell that holds no text, ranks 99. *)
Lemma sector_rank_no_key (v : value) :
  (forall s : string, v = VStr s -> SECTOR_RANK !! s = None) -> sector_rank v = 99%Z.
Proof.
  intros H. destruct v as [| x | s | cs]; try reflexivity.
  apply sector_rank_unlisted, H. reflexivity.
Qed.

(** The rank of a listed sector is its entry in the table. *)
Lemma sector_rank_lookup (s : string) (r : Z) :
  SECTOR_RANK !! s = Some r -> sector_rank (VStr s) = r.
Proof. intros H. unfold sector_rank. rewrite H. reflexivity. Qed.

(** C9. [sort_values] rearranges the records into ascending order of the
    key (sector rank, sector name, ticker). The rank of a sector is its
    entry in [SECTOR_RANK]; a sector that is no key of the table ranks 99,
    above the ranks 1 to 11 of the listed sectors (the entry "Unknown",
    itself 99, apart), so that no record of an unlisted sector stands
    before a record of a listed one. Technology, Energy and Unknown rank
    4, 8 and 99, so no Energy record stands before a Technology record
    and no Unknown record before an Energy record; among sectors of one
    rank no record stands before one of a smaller sector name, and within
    one sector no record stands before one of a smaller ticker. *)
Theorem sort_values_by_sector_rank (df : list metrics) :
  Permutation df (sort_values df) /\
  StronglySorted key_le (sort_values df) /\
  (forall a b : metrics,
      key_le a b <->
      (sector_rank (Sector a) < sector_rank (Sector b))%Z \/
      (sector_rank (Sector a) = sector_rank (Sector b) /\
       (sector_compare (Sector a) (Sector b) = Lt \/
        (sector_compare (Sector a) (Sector b) = Eq /\
         String.leb (Ticker a) (Ticker b) = true)))) /\
  (forall s : string, SECTOR_RANK !! s = None -> sector_rank (VStr s) = 99%Z) /\
  (forall (s : string) (r : Z),
      SECTOR_RANK !! s = Some r -> s <> "Unknown" -> (1 <= r <= 11)%Z) /\
  sector_rank (VStr "Technology") = 4%Z /\
  sector_rank (VStr "Energy") = 8%Z /\
  sector_rank (VStr "Unknown") = 99%Z /\
  (forall a b : metrics,
      Sector a = VStr "Technology" -> Sector b = VStr "Energy" ->
      ~ before b a (sort_values df)) /\
  (forall a b : metrics,
      Sector a = VStr "Energy" -> Sector b = VStr "Unknown" ->
      ~ before b a (sort_values df)) /\
  (forall a b : metrics,
      Sector a = Sector b -> String.ltb (Ticker a) (Ticker b) = true ->
      ~ before b a (sort_values df)) /\
  (forall (s : string) (r : Z),
      SECTOR_RANK !! s = Some r -> sector_rank (VStr s) = r) /\
  (forall v : value,
      (forall s : string, v = VStr s -> SECTOR_RANK !! s = None) ->
      sector_rank v = 99%Z) /\
  (forall (s : string) (r : Z) (v : value),
      SECTOR_RANK !! s = Some r -> s <> "Unknown" ->
      (forall t : string, v = VStr t -> SECTOR_RANK !! t = None) ->
      (sector_rank (VStr s) < sector_rank v)%Z) /\
  (forall (a b : metrics) (s : string) (r : Z),
      Sector a = VStr s -> SECTOR_RANK !! s = Some r -> s <> "Unknown" ->
      (forall t : string, Sector b = VStr t -> SECTOR_RANK !! t = None) ->
      ~ before b a (sort_values df)) /\
  (forall (a b : metrics) (s t : string),
      Sector a = VStr s -> Sector b = VStr t ->
      sector_rank (VStr s) = sector_rank (VStr t) -> String.ltb s t = true ->
      ~ before b a (sort_values df)).
Proof.
  pose proof (sort_values_sorted df) as Hsorted.
  assert (forall (s : string) (r : Z) (v : value),
             SECTOR_RANK !! s = Some r -> s <> "Unknown" ->
             (forall t : string, v = VStr t -> SECTOR_RANK !! t = None) ->
             (sector_rank (VStr s) < sector_rank v)%Z) as Hlast.
  { intros s r v Hs Hne Hv.
    rewrite (sector_rank_lookup s r Hs), (sector_rank_no_key v Hv).
    pose proof (sector_rank_listed s r Hs Hne). lia. }
  split; [apply sort_values_perm |].
  split; [exact Hsorted |].
  split; [apply key_le_lexicographic |].
  split; [apply sector_rank_unlisted |].
  split; [apply sector_rank_listed |].
  do 3 (split; [reflexivity |]).
  split; [| split; [| split]].
  - intros a b Ha Hb Hbefore.
    apply (sorted_before b a _ Hsorted), key_le_lexicographic in Hbefore.
    rewrite Ha, Hb in Hbefore.
    destruct Hbefore as [H | [H _]]; vm_compute in H; discriminate.
  - intros a b Ha Hb Hbefore.
    apply (sorted_before b a _ Hsorted), key_le_lexicographic in Hbefore.
    rewrite Ha, Hb in Hbefore.
    destruct Hbefore as [H | [H _]]; vm_compute in H; discriminate.
  - intros a b Hsec Hlt Hbefore.
    apply (sorted_before b a _ Hsorted), key_le_lexicographic in Hbefore.
    rewrite Hsec, sector_compare_refl in Hbefore.
    unfold String.ltb in Hlt. unfold String.leb in Hbefore.
    rewrite String.compare_antisym in Hbefore.
    destruct (String.compare (Ticker a) (Ticker b)); try discriminate.
    destruct Hbefore as [H | [_ [H | [_ H]]]]; try lia; discriminate.
  - split; [apply sector_rank_lookup |].
    split; [apply sector_rank_no_key |].
    split; [exact Hlast |].
    split.
    + intros a b s r Ha Hs Hne Hb Hbefore.
      apply (sorted_before b a _ Hsorted), key_le_lexicographic in Hbefore.
      pose proof (Hlast s r (Sector b) Hs Hne Hb) as Hlt.
      rewrite Ha in Hbefore. destruct Hbefore as [H | [H _]]; lia.
    + intros a b s t Ha Hb Hrank Hlt Hbefore.
      apply (sorted_before b a _ Hsorted), key_le_lexicographic in Hbefore.
      rewrite Ha, Hb in Hbefore.
      change (sector_compare (VStr t) (VStr s)) with (String.compare t s) in Hbefore.
      unfold String.ltb in Hlt. rewrite String.compare_antisym in Hbefore.
      destruct (String.compare s t); try discriminate.
      destruct Hbefore as [H | [_ [H | [H _]]]]; try lia; discriminate.
Qed.

(** ** Compound growth *)

Lemma take_short {X : Type} (n : nat) (l : list X) :
  length l < 2 -> take n l = [] \/ exists a, take n l = [a].
Proof.
  destruct l as [| a [| b l]]; simpl; intros H; try lia.
  - left. destruct n; reflexivity.
  - destruct n; simpl; [left; reflexivity | right; exists a].
    destruct n; reflexivity.
Qed.

(** The growth over the values [first :: mid ++ [final]] that [cagr4]
    keeps from a row. *)
Lemma cagr4_of_values (power : float -> float -> float) (fin : DataFrame)
    (metric : string) (row : list float) (first : float) (mid : list float)
    (final : float) :
  rows fin !! metric = Some row ->
  take 4 (dropna row) = first :: mid ++ [final] ->
  cagr4 power fin metric =
  if is_zero final then VNone
  else VNum (power (first / final)
                   (1 / float_of_nat (length (take 4 (dropna row)) - 1)) - 1)%float.
Proof.
  intros Hrow Hv. unfold cagr4. rewrite Hrow, Hv.
  assert (List.last (first :: mid ++ [final])%list nan = final) as Hlast.
  { rewrite app_comm_cons. apply List.last_last. }
  revert Hlast. generalize (length (first :: mid ++ [final])%list - 1).
  destruct (mid ++ [final])%list as [| f l0] eqn:Etail.
  - destruct mid; discriminate Etail.
  - intros n ->. reflexivity.
Qed.

(** The values [cagr4] keeps from the non-missing values [l] of a row: the
    most recent one, [first], up to two in between, and [final], which is
    the fourth value when there are four or more and the oldest one
    otherwise. *)
Lemma kept_values (l : list float) :
  2 <= length l ->
  exists (first : float) (mid : list float) (final : float) (older : list float),
    l = (first :: mid ++ final :: older)%list /\
    (length mid = 2 \/ older = []) /\ length mid <= 2 /\
    take 4 l = (first :: mid ++ [final])%list.
Proof.
  destruct l as [| a [| b [| c [| d rest]]]]; simpl; intros Hlen; try lia.
  - exists a, [], b, []. simpl. repeat split; auto.
  - exists a, [b], c, []. simpl. repeat split; auto.
  - exists a, [b; c], d, rest. simpl. repeat split; auto.
Qed.

(** C2, as the code has it. [cagr4] drops the missing periods of the row
    first and keeps the four most recent values that remain. It returns
    [None] when the row is absent or has fewer than two values. Otherwise,
    with [first] the most recent value, [final] the oldest of the up to
    four values kept and [n] their number, it returns [None] when [final]
    is zero and (first/final)^(1/(n-1)) - 1 when it is not. For the row
    [100, 80] this is 0.25, the power of exponent 1 being exact. *)
Theorem cagr4_latest_four_values (power : float -> float -> float)
    (fin : DataFrame) (metric : string) :
  (rows fin !! metric = None -> cagr4 power fin metric = VNone) /\
  (forall row : list float,
      rows fin !! metric = Some row -> length (dropna row) < 2 ->
      cagr4 power fin metric = VNone) /\
  (forall row : list float,
      rows fin !! metric = Some row -> 2 <= length (dropna row) ->
      exists (first : float) (mid : list float) (final : float) (older : list float),
        dropna row = (first :: mid ++ final :: older)%list /\
        (length mid = 2 \/ older = []) /\ length mid <= 2 /\
        cagr4 power fin metric =
        if is_zero final then VNone
        else VNum (power (first / final)
                         (1 / float_of_nat (length (first :: mid ++ [final])%list - 1))
                   - 1)%float) /\
  (forall row : list float,
      rows fin !! metric = Some row -> dropna row = [100%float; 80%float] ->
      power 1.25%float 1%float = 1.25%float ->
      cagr4 power fin metric = VNum 0.25).
Proof.
  split; [| split; [| split]].
  - intros Hrow. unfold cagr4. rewrite Hrow. reflexivity.
  - intros row Hrow Hlen. unfold cagr4. rewrite Hrow.
    destruct (take_short 4 (dropna row) Hlen) as [-> | [a ->]]; reflexivity.
  - intros row Hrow Hlen.
    destruct (kept_values (dropna row) Hlen)
      as (first & mid & final & older & Hvalues & Hfour & Hmid & Hkept).
    exists first, mid, final, older. repeat split; try assumption.
    rewrite (cagr4_of_values power fin metric row first mid final Hrow Hkept).
    rewrite Hkept. reflexivity.
  - intros row Hrow Hvalues Hpower.
    rewrite (cagr4_of_values power fin metric row 100 [] 80 Hrow);
      rewrite Hvalues; [| reflexivity].
    change (VNum (power 1.25 1 - 1)%float = VNum 0.25). rewrite Hpower. reflexivity.
Qed.

(** The revenue of 100 after 80 a year before grew by a quarter. *)
Lemma cagr4_latest_four_values_witness :
  cagr4 power_example revenue_two_years "Total Revenue" = VNum 0.25.
Proof.
  destruct (cagr4_latest_four_values power_example revenue_two_years "Total Revenue")
    as (_ & _ & _ & Hexample).
  apply (Hexample [100%float; 80%float]); reflexivity.
Defined.

(** C2 as stated fails. Over five reported years the revenue row is
    [100, missing, missing, missing, 80]: a single value lies among the
    four most recent periods, and still [cagr4] returns a growth, 0.25,
    taken against the fifth period. *)
Lemma cagr4_reaches_beyond_four_periods :
  rows revenue_with_gap !! "Total Revenue"
    = Some [100%float; nan; nan; nan; 80%float] /\
  length (dropna (take 4 [100%float; nan; nan; nan; 80%float])) = 1 /\
  (forall power : float -> float -> float,
      cagr4 power revenue_with_gap "Total Revenue" <> VNone) /\
  cagr4 power_example revenue_with_gap "Total Revenue" = VNum 0.25.
Proof.
  split; [reflexivity |]. split; [reflexivity |]. split; [| reflexivity].
  intros power.
  rewrite (cagr4_of_values power revenue_with_gap "Total Revenue"
             [100%float; nan; nan; nan; 80%float] 100 [] 80);
    [discriminate | reflexivity | reflexivity].
Qed.

(** ** A failed build in the batch *)

(** C3, at the input where the code departs from it. The statements of
    VOID have no period, so its build raises; the batch goes on to XOM,
    VOID gets no record and is absent from the ordered table, its message
    goes to the screen, and the error list [errs] stays empty. *)
Theorem failed_build_leaves_no_error_entry :
  construir_demo "VOID" = Raise ValueError /\
  exists st : batch,
    analizar_demo ["MSFT"; "VOID"; "XOM"] = Ok st /\
    map Ticker (datos st) = ["MSFT"; "XOM"] /\
    errs st = [] /\
    shown st = ["Error obteniendo datos para VOID: ValueError"] /\
    option_map (map Ticker) (portfolio st) = Some ["MSFT"; "XOM"].
Proof.
  split; [reflexivity |].
  unfold analizar_demo. rewrite analizar_outcome.
  eexists. split; [reflexivity |]. vm_compute. repeat split.
Qed.

(** ** Sample runs *)

(** A market capitalisation of [None] beside a debt of 100 stops the
    build of NOCAP in [calc_wacc]. *)
Lemma missing_market_cap_fails_build : construir_demo "NOCAP" = Raise TypeError.
Proof. reflexivity. Qed.

(** The debt row of GAPS has no value in any period: [safe_first] hands
    the emptied row to [or], which raises. *)
Lemma debt_row_without_values_fails_build :
  construir_demo "GAPS" = Raise ValueError.
Proof. reflexivity. Qed.

(** Five tickers, one of them without statements, in the order of the
    sector table: Technology (AAPL before MSFT), Energy, then the company
    without a sector. *)
Lemma ordered_sample :
  exists st : batch,
    analizar_demo ["XOM"; "MSFT"; "ACME"; "VOID"; "AAPL"] = Ok st /\
    option_map (map Ticker) (portfolio st) = Some ["AAPL"; "MSFT"; "XOM"; "ACME"] /\
    errs st = [].
Proof.
  unfold analizar_demo. rewrite analizar_outcome.
  eexists. split; [reflexivity |]. vm_compute. split; reflexivity.
Qed.

(** Sectors of several kinds: the listed sector first, then, all of rank
    99, the numbers by value, the texts by name, and the missing sector
    last. *)
Lemma ordered_mixed_sample :
  map Ticker (sort_values datos_mixtos) = ["T1"; "N3"; "N5"; "A1"; "Z1"; "M1"].
Proof. vm_compute. reflexivity. Qed.

(** * Further properties *)

(** ** Chunks *)

Lemma range_from_zero_positive (n : nat) (step : Z) :
  (0 < step)%Z ->
  range_from_zero n step =
  Ok (map (fun k => k * Z.to_nat step) (seq 0 ((n + Z.to_nat step - 1) / Z.to_nat step))).
Proof.
  intros H. unfold range_from_zero.
  destruct (Z.eqb_spec step 0); [lia |].
  destruct (Z.ltb_spec step 0); [lia | reflexivity].
Qed.

(** The first [c] windows of width [s] laid end to end are the first
    [c * s] rows. *)
Lemma concat_windows {A : Type} (s : nat) (l : list A) (c : nat) :
  concat (map (fun i => take s (drop i l)) (map (fun k => k * s) (seq 0 c)))
  = take (c * s) l.
Proof.
  induction c as [| c IH].
  - reflexivity.
  - rewrite seq_S, !map_app, concat_app, IH. simpl.
    rewrite app_nil_r, take_take_drop. f_equal. lia.
Qed.

(** The number of windows, [ceil(n / s)], covers [n] rows and the last
    window starts inside them. *)
Lemma windows_cover (n s : nat) :
  0 < s -> n <= (n + s - 1) / s * s /\ (0 < n -> ((n + s - 1) / s - 1) * s < n).
Proof.
  intros Hs. pose proof (Nat.div_mod (n + s - 1) s ltac:(lia)) as Hdiv.
  pose proof (Nat.mod_upper_bound (n + s - 1) s ltac:(lia)) as Hmod.
  set (c := (n + s - 1) / s) in *. set (r := (n + s - 1) mod s) in *.
  split; [nia |]. intros Hn. destruct c; nia.
Qed.

Lemma chunk_df_rows {A : Type} (df : list A) (size : Z) :
  0 < length df ->
  chunk_df df size =
  starts ← range_from_zero (length df) size;
  Ok (map (fun i => take (Z.to_nat size) (drop i df)) starts).
Proof. destruct df; simpl; [lia | reflexivity]. Qed.

(** X1. For a positive window size [chunk_df] cuts the rows of a table
    into consecutive windows: laid end to end the chunks give the table
    back, there are ceil(n/size) of them, none is empty or longer than
    the size, and every chunk but the last has exactly the size. *)
Theorem chunk_df_partition {A : Type} (df : list A) (size : Z) :
  (0 < size)%Z ->
  exists chunks : list (list A),
    chunk_df df size = Ok chunks /\
    concat chunks = df /\
    length chunks = (length df + Z.to_nat size - 1) / Z.to_nat size /\
    Forall (fun c => 1 <= length c <= Z.to_nat size) chunks /\
    (forall (k : nat) (c : list A),
        chunks !! k = Some c -> S k < length chunks -> length c = Z.to_nat size).
Proof.
  intros Hsize. set (s := Z.to_nat size). assert (0 < s) as Hs by lia.
  destruct df as [| a df'] eqn:Hdf.
  - exists []. simpl. repeat split; auto.
    + symmetry. apply Nat.div_small. lia.
    + intros k c Hk. rewrite lookup_nil in Hk. discriminate.
  - rewrite <- Hdf. set (n := length df).
    assert (0 < n) as Hn by (unfold n; rewrite Hdf; simpl; lia).
    destruct (windows_cover n s Hs) as [Hcover Hlast]. specialize (Hlast Hn).
    exists (map (fun i => take s (drop i df)) (map (fun k => k * s) (seq 0 ((n + s - 1) / s)))).
    split.
    { rewrite (chunk_df_rows df size Hn).
      rewrite (range_from_zero_positive _ _ Hsize). reflexivity. }
    split.
    { rewrite concat_windows. apply take_ge. exact Hcover. }
    split.
    { rewrite !length_map, length_seq. reflexivity. }
    assert (forall k c,
               map (fun i => take s (drop i df))
                   (map (fun k => k * s) (seq 0 ((n + s - 1) / s))) !! k = Some c ->
               k < (n + s - 1) / s /\ c = take s (drop (k * s) df)) as Hlookup.
    { intros k c Hk. rewrite !list_lookup_fmap in Hk.
      destruct (seq 0 ((n + s - 1) / s) !! k) as [j |] eqn:Hj; [| discriminate].
      apply lookup_seq in Hj as [-> Hlt]. simpl in Hk.
      injection Hk as <-. split; [exact Hlt | reflexivity]. }
    split.
    { apply Forall_lookup. intros k c Hk.
      destruct (Hlookup k c Hk) as [Hlt ->].
      rewrite length_take, length_drop. fold n. nia. }
    intros k c Hk Hnext. destruct (Hlookup k c Hk) as [Hlt ->].
    rewrite !length_map, length_seq in Hnext.
    rewrite length_take, length_drop. fold n. nia.
Qed.

(** Twenty-three rows in windows of ten: chunks of 10, 10 and 3 rows. *)
Lemma chunk_df_partition_witness :
  exists chunks : list (list nat),
    chunk_df (seq 0 23) MAX_TICKERS_PER_CHART = Ok chunks /\
    concat chunks = seq 0 23 /\ map length chunks = [10; 10; 3].
Proof.
  destruct (chunk_df_partition (seq 0 23) MAX_TICKERS_PER_CHART ltac:(reflexivity))
    as (chunks & Hchunks & Hconcat & _).
  exists chunks. split; [exact Hchunks |]. split; [exact Hconcat |].
  vm_compute in Hchunks. injection Hchunks as <-. reflexivity.
Defined.

(** X2. The window sizes that do not cut: an empty table gives no chunk
    whatever the size is; on a table with rows, a size of zero raises
    [ValueError] (the step of [range]) and a negative size gives no chunk
    at all, so the rows are lost. *)
Theorem chunk_df_degenerate_sizes {A : Type} (a : A) (df : list A) (size : Z) :
  chunk_df (@nil A) size = Ok [] /\
  chunk_df (a :: df) 0 = Raise ValueError /\
  ((size < 0)%Z -> chunk_df (a :: df) size = Ok []).
Proof.
  split; [reflexivity |]. split; [reflexivity |].
  intros Hneg. unfold chunk_df, range_from_zero.
  destruct (Z.eqb_spec size 0); [lia |].
  destruct (Z.ltb_spec size 0); [reflexivity | lia].
Qed.

(** ** More on the ordered table *)

Lemma sorted_is_fixed (l : list metrics) :
  StronglySorted key_le l -> sort_values l = l.
Proof.
  intros H. induction H as [| x l Hl IH Hx]; simpl; [reflexivity |].
  rewrite IH. destruct Hx as [| y l' Hxy _]; simpl; [reflexivity |].
  unfold key_le in Hxy. rewrite Hxy. reflexivity.
Qed.

Lemma key_compare_eq_ticker (a b : metrics) :
  key_le a b -> key_le b a -> Ticker a = Ticker b.
Proof.
  unfold key_le, key_leb. rewrite (cmp_antisym key_compare ordering_key a b).
  destruct (key_compare a b) eqn:E; simpl; try discriminate.
  intros _ _. unfold key_compare, lex in E.
  destruct (Z.compare _ _); try discriminate.
  destruct (sector_compare _ _); try discriminate.
  apply String.compare_eq_iff. exact E.
Qed.

(** Two sorted arrangements of the same rows are equal when no two rows
    share a ticker. *)
Lemma sorted_arrangement_unique (l1 l2 : list metrics) :
  NoDup (map Ticker l1) -> Permutation l1 l2 ->
  StronglySorted key_le l1 -> StronglySorted key_le l2 -> l1 = l2.
Proof.
  revert l2. induction l1 as [| a t1 IH]; intros l2 Hnodup Hperm Hs1 Hs2.
  - apply Permutation_nil in Hperm. congruence.
  - destruct l2 as [| b t2].
    { symmetry in Hperm. apply Permutation_nil in Hperm. discriminate. }
    assert (a = b) as <-.
    { apply StronglySorted_inv in Hs1 as [_ Ha], Hs2 as [_ Hb].
      rewrite List.Forall_forall in Ha, Hb.
      assert (In a (b :: t2)) as Hain
          by (apply (Permutation_in a Hperm); left; reflexivity).
      assert (In b (a :: t1)) as Hbin
          by (apply (Permutation_in b (Permutation_sym Hperm)); left; reflexivity).
      destruct Hain as [-> | Hain]; [reflexivity |].
      destruct Hbin as [-> | Hbin]; [reflexivity |].
      pose proof (key_compare_eq_ticker a b (Ha b Hbin) (Hb a Hain)) as Hticker.
      exfalso. simpl in Hnodup. apply NoDup_cons in Hnodup as [Hfresh _].
      apply Hfresh. rewrite Hticker. apply list_elem_of_In, in_map, Hbin. }
    f_equal. apply IH.
    + simpl in Hnodup. apply NoDup_cons in Hnodup as [_ H]. exact H.
    + apply (Permutation_cons_inv Hperm).
    + apply StronglySorted_inv in Hs1 as [H _]. exact H.
    + apply StronglySorted_inv in Hs2 as [H _]. exact H.
Qed.

(** X3. Sorting an ordered table again changes nothing, and the ordered
    table of records with pairwise different tickers does not depend on
    the order the records arrive in. *)
Theorem sort_values_canonical (df df' : list metrics) :
  sort_values (sort_values df) = sort_values df /\
  (NoDup (map Ticker df) -> Permutation df df' -> sort_values df = sort_values df').
Proof.
  split.
  - apply sorted_is_fixed, sort_values_sorted.
  - intros Hnodup Hperm. apply sorted_arrangement_unique.
    + rewrite <- (sort_values_perm df). exact Hnodup.
    + rewrite <- (sort_values_perm df), <- (sort_values_perm df'). exact Hperm.
    + apply sort_values_sorted.
    + apply sort_values_sorted.
Qed.

(** ** More on the batch loop *)

Section BatchAccounts.

Variables Rf Rm : float.
Variable power : float -> float -> float.
Variable yf : string -> download.
Variable Tc0 : float.

Lemma construido_ticker (tk : string) (d : metrics) :
  construido Rf Rm power yf Tc0 tk = Some d -> Ticker d = tk.
Proof.
  unfold construido.
  destruct (construir Rf Rm power yf tk Tc0) as [d' | |] eqn:Hb; try discriminate.
  intros H. injection H as <-. exact (construir_ticker _ _ _ _ _ _ _ Hb).
Qed.

Lemma built_tickers_sublist (tickers : list string) :
  sublist (map Ticker (omap (construido Rf Rm power yf Tc0) tickers)) tickers.
Proof.
  induction tickers as [| tk rest IH]; simpl; [constructor |].
  destruct (construido Rf Rm power yf Tc0 tk) as [d |] eqn:Hd; simpl.
  - rewrite (construido_ticker tk d Hd). apply sublist_skip, IH.
  - apply sublist_cons, IH.
Qed.

(** Every ticker leaves exactly one trace: a record or a message. *)
Lemma one_trace_each (tickers : list string) :
  length (omap (construido Rf Rm power yf Tc0) tickers)
  + length (concat (map (aviso Rf Rm power yf Tc0) tickers))
  = length tickers.
Proof.
  induction tickers as [| tk rest IH]; simpl; [reflexivity |].
  assert ((exists d, construido Rf Rm power yf Tc0 tk = Some d /\
                     aviso Rf Rm power yf Tc0 tk = []) \/
          (construido Rf Rm power yf Tc0 tk = None /\
           exists m, aviso Rf Rm power yf Tc0 tk = [m])) as Hcase.
  { pose proof (construir_inside Rf Rm power yf tk Tc0) as Hin.
    unfold construido, aviso.
    destruct (construir Rf Rm power yf tk Tc0) as [d | e |];
      [left | right | contradiction]; eauto. }
  unfold omap in *. destruct Hcase as [(d & -> & ->) | (-> & m & ->)]; simpl; lia.
Qed.

(** X4. The loop of [main] ends for every list of tickers and accounts for
    each ticker exactly once: the records in [datos] and the messages on
    the screen together are as many as the tickers, the tickers of the
    records are a sublist of the input (same order, nothing added), and
    [errs] is empty. *)
Theorem analizar_accounts_for_every_ticker (tickers : list string) :
  exists st : batch,
    analizar Rf Rm power yf Tc0 tickers = Ok st /\
    length (datos st) + length (shown st) = length tickers /\
    sublist (map Ticker (datos st)) tickers /\
    errs st = [].
Proof.
  rewrite analizar_outcome. eexists. split; [reflexivity |]. simpl.
  split; [apply one_trace_each |]. split; [apply built_tickers_sublist | reflexivity].
Qed.

(** X5. For tickers entered without repetition the ordered table does not
    depend on the order they were entered in. *)
Theorem portfolio_independent_of_entry_order (tickers tickers' : list string)
    (st st' : batch) :
  NoDup tickers -> Permutation tickers tickers' ->
  analizar Rf Rm power yf Tc0 tickers = Ok st ->
  analizar Rf Rm power yf Tc0 tickers' = Ok st' ->
  portfolio st = portfolio st'.
Proof.
  intros Hnodup Hperm Hst Hst'. rewrite analizar_outcome in Hst, Hst'.
  injection Hst as <-. injection Hst' as <-. unfold portfolio. simpl.
  assert (Permutation (omap (construido Rf Rm power yf Tc0) tickers)
                      (omap (construido Rf Rm power yf Tc0) tickers')) as Hdatos
      by (rewrite Hperm; reflexivity).
  assert (sort_values (omap (construido Rf Rm power yf Tc0) tickers)
          = sort_values (omap (construido Rf Rm power yf Tc0) tickers')) as Hsame.
  { apply sorted_arrangement_unique.
    - rewrite <- sort_values_perm.
      exact (sublist_NoDup _ _ Hnodup (built_tickers_sublist tickers)).
    - rewrite <- !sort_values_perm. exact Hdatos.
    - apply sort_values_sorted.
    - apply sort_values_sorted. }
  destruct (omap (construido Rf Rm power yf Tc0) tickers) as [| d l] eqn:E1;
    destruct (omap (construido Rf Rm power yf Tc0) tickers') as [| d' l'] eqn:E2.
  - reflexivity.
  - apply Permutation_nil in Hdatos. discriminate.
  - symmetry in Hdatos. apply Permutation_nil in Hdatos. discriminate.
  - rewrite Hsame. reflexivity.
Qed.

End BatchAccounts.

(** XOM entered before MSFT or after it: the same table. *)
Lemma portfolio_independent_of_entry_order_witness :
  exists st st' : batch,
    analizar_demo ["XOM"; "MSFT"] = Ok st /\
    analizar_demo ["MSFT"; "XOM"] = Ok st' /\
    portfolio st = portfolio st' /\
    option_map (map Ticker) (portfolio st) = Some ["MSFT"; "XOM"].
Proof.
  destruct (analizar_demo ["XOM"; "MSFT"]) as [st | |] eqn:H1; try discriminate H1.
  destruct (analizar_demo ["MSFT"; "XOM"]) as [st' | |] eqn:H2; try discriminate H2.
  exists st, st'. repeat split.
  - refine (portfolio_independent_of_entry_order _ _ _ _ _
              ["XOM"; "MSFT"] ["MSFT"; "XOM"] st st' _ _ H1 H2).
    + apply (bool_decide_unpack _). vm_compute. exact I.
    + apply perm_swap.
  - vm_compute in H1. injection H1 as <-. reflexivity.
Defined.

(** ** Sector groups *)

Lemma unique_In (x : value) (l : list value) : In x (unique l) -> In x l.
Proof.
  revert x. induction l as [| y l IH]; simpl; intros x H; [exact H |].
  destruct H as [-> | H]; [left; reflexivity | right].
  apply List.filter_In in H as [H _]. apply IH, H.
Qed.

Lemma filter_all {X : Type} (p : X -> bool) (l : list X) :
  (forall x, In x l -> p x = true) -> List.filter p l = l.
Proof.
  induction l as [| y l IH]; simpl; intros H; [reflexivity |].
  rewrite (H y (or_introl eq_refl)). f_equal. apply IH.
  intros x Hx. apply H. right. exact Hx.
Qed.

Lemma filter_none {X : Type} (p : X -> bool) (l : list X) :
  (forall x, In x l -> p x = false) -> List.filter p l = [].
Proof.
  induction l as [| y l IH]; simpl; intros H; [reflexivity |].
  rewrite (H y (or_introl eq_refl)). apply IH.
  intros x Hx. apply H. right. exact Hx.
Qed.

Lemma filter_comm {X : Type} (p q : X -> bool) (l : list X) :
  List.filter p (List.filter q l) = List.filter q (List.filter p l).
Proof.
  induction l as [| y l IH]; simpl; [reflexivity |].
  destruct (p y) eqn:Hp, (q y) eqn:Hq; simpl; rewrite ?Hp, ?Hq, IH; reflexivity.
Qed.

(** Dropping cells before or after [unique] is the same. *)
Lemma unique_filter (p : value -> bool) (l : list value) :
  List.filter p (unique l) = unique (List.filter p l).
Proof.
  induction l as [| x l IH]; simpl; [reflexivity |].
  destruct (p x) eqn:Hp; simpl.
  - rewrite filter_comm, IH. reflexivity.
  - rewrite filter_comm, IH. apply filter_all.
    intros y Hy. apply unique_In, List.filter_In in Hy as [_ Hy].
    apply negb_true_iff, bool_decide_eq_false. intros ->. congruence.
Qed.

Lemma cell_eq_text (v : value) (s : string) :
  cell_eq v (VStr s) = true <-> v = VStr s.
Proof.
  destruct v as [| x | t | cs]; simpl; split; try discriminate.
  - intros H. apply String.eqb_eq in H. congruence.
  - intros H. injection H as ->. apply String.eqb_refl.
Qed.

Lemma cell_eq_not_none (a b : value) : cell_eq a b = true -> a <> VNone /\ b <> VNone.
Proof. destruct a, b; simpl; try discriminate; intros _; split; discriminate. Qed.

Lemma strongly_sorted_filter {X : Type} (R : X -> X -> Prop) (p : X -> bool)
    (l : list X) :
  StronglySorted R l -> StronglySorted R (List.filter p l).
Proof.
  intros H. induction H as [| x l Hl IH Hx]; simpl; [constructor |].
  destruct (p x); [| exact IH]. constructor; [exact IH |].
  rewrite List.Forall_forall in *. intros y Hy.
  apply List.filter_In in Hy as [Hy _]. apply Hx, Hy.
Qed.

(** Between two rows of one sector an ordered table holds only rows of
    that sector. *)
Lemma sector_sandwich (a b c : metrics) (s : string) :
  key_le a b -> key_le b c ->
  Sector a = VStr s -> Sector c = VStr s -> Sector b = VStr s.
Proof.
  rewrite !key_le_lexicographic. intros Hab Hbc Ha Hc.
  rewrite Ha in Hab. rewrite Hc in Hbc.
  assert (sector_rank (Sector b) = sector_rank (VStr s)) as Hrank.
  { destruct Hab as [? | [? _]], Hbc as [? | [? _]]; lia. }
  rewrite Hrank in *.
  destruct Hab as [? | [_ Hab]]; [lia |]. destruct Hbc as [? | [_ Hbc]]; [lia |].
  destruct (Sector b) as [| x | t | cs]; unfold sector_compare in *; simpl in *;
    try destruct (is_nan x);
    try (destruct Hbc as [? | [? _]]; discriminate);
    try (destruct Hab as [? | [? _]]; discriminate).
  f_equal. symmetry. apply String.compare_eq_iff.
  rewrite (String.compare_antisym t s) in Hbc.
  destruct (String.compare s t) eqn:Est; simpl in Hbc; [reflexivity | | ].
  - destruct Hbc as [? | [? _]]; discriminate.
  - destruct Hab as [? | [? _]]; discriminate.
Qed.

Lemma sector_groups_concat (l : list metrics) :
  concat (map snd (sector_groups l))
  = concat (map (sector_rows l) (unique (map Sector l))).
Proof.
  unfold sector_groups. generalize (unique (map Sector l)) as keys.
  induction keys as [| k keys IH]; simpl; [reflexivity |].
  destruct (sector_rows l k) eqn:E; simpl; rewrite IH; reflexivity.
Qed.

(** In an ordered table the rows of the first row's sector come first. *)
Lemma sorted_split (a : metrics) (l : list metrics) (s : string) :
  StronglySorted key_le (a :: l) -> Sector a = VStr s ->
  (sector_rows l (VStr s)
   ++ List.filter (fun r => negb (cell_eq (Sector r) (VStr s))) l)%list = l.
Proof.
  intros Hsorted Ha. induction l as [| b l IH]; [reflexivity |].
  apply StronglySorted_inv in Hsorted as [Hbl Hal].
  apply Forall_cons in Hal as [Hab Hal].
  pose proof Hbl as Hbl'. apply StronglySorted_inv in Hbl' as [Hl Hb].
  assert (StronglySorted key_le (a :: l)) as Hal' by (constructor; assumption).
  unfold sector_rows in *. simpl.
  destruct (cell_eq (Sector b) (VStr s)) eqn:Hbs; simpl.
  - f_equal. apply IH, Hal'.
  - rewrite (filter_none (fun r => cell_eq (Sector r) (VStr s)) l).
    + simpl. f_equal. apply filter_all. intros c Hc.
      apply negb_true_iff. destruct (cell_eq (Sector c) (VStr s)) eqn:Hcs; [| reflexivity].
      apply cell_eq_text in Hcs. rewrite List.Forall_forall in Hb.
      pose proof (sector_sandwich a b c s Hab (Hb c Hc) Ha Hcs) as Hbsec.
      apply cell_eq_text in Hbsec. congruence.
    + intros c Hc. destruct (cell_eq (Sector c) (VStr s)) eqn:Hcs; [| reflexivity].
      apply cell_eq_text in Hcs. rewrite List.Forall_forall in Hb.
      pose proof (sector_sandwich a b c s Hab (Hb c Hc) Ha Hcs) as Hbsec.
      apply cell_eq_text in Hbsec. congruence.
Qed.

(** The groups of an ordered table whose sectors are all texts, laid end
    to end, are the table. *)
Lemma text_groups_partition (n : nat) (l : list metrics) :
  length l <= n ->
  (forall r, In r l -> textual (Sector r) = true) ->
  StronglySorted key_le l ->
  concat (map (sector_rows l) (unique (map Sector l))) = l.
Proof.
  revert l. induction n as [| n IH]; intros l Hlen Htext Hsorted.
  { destruct l; [reflexivity | simpl in Hlen; lia]. }
  destruct l as [| a l]; [reflexivity |].
  destruct (Sector a) as [| x | s | cs] eqn:Ha;
    try (specialize (Htext a (or_introl eq_refl)); rewrite Ha in Htext; discriminate).
  set (rest := List.filter (fun r => negb (cell_eq (Sector r) (VStr s))) l).
  assert (List.filter (fun y => negb (bool_decide (y = VStr s))) (unique (map Sector l))
          = unique (map Sector rest)) as Hkeys.
  { rewrite unique_filter, filter_map_swap. do 2 f_equal.
    apply List.filter_ext. intros r. f_equal.
    destruct (cell_eq (Sector r) (VStr s)) eqn:E.
    - apply bool_decide_eq_true, cell_eq_text, E.
    - apply bool_decide_eq_false. intros H. apply cell_eq_text in H. congruence. }
  simpl. rewrite Ha, Hkeys. unfold sector_rows at 1. simpl.
  rewrite String.eqb_refl. simpl. f_equal.
  etransitivity; [| exact (sorted_split a l s Hsorted Ha)].
  change (sector_rows l (VStr s))
    with (List.filter (fun r => cell_eq (Sector r) (VStr s)) l).
  f_equal. fold rest.
  etransitivity; [| apply (IH rest)].
  - f_equal. apply map_ext_in. intros k Hk.
    apply unique_In, in_map_iff in Hk as (r & <- & Hr).
    apply List.filter_In in Hr as [Hr Hrs]. apply negb_true_iff in Hrs.
    unfold sector_rows. simpl. rewrite Ha.
    assert (cell_eq (VStr s) (Sector r) = false) as ->.
    { destruct (cell_eq (VStr s) (Sector r)) eqn:E; [| reflexivity].
      destruct (Sector r); simpl in *; try discriminate.
      rewrite String.eqb_sym in E. congruence. }
    unfold rest. rewrite filter_comm. symmetry. apply filter_all.
    intros c Hc. apply List.filter_In in Hc as [Hc Hck]. apply negb_true_iff.
    destruct (cell_eq (Sector c) (VStr s)) eqn:E; [| reflexivity].
    apply cell_eq_text in E. rewrite E in Hck.
    specialize (Htext r (or_intror Hr)).
    destruct (Sector r); simpl in *; try discriminate.
    rewrite String.eqb_sym in Hck. congruence.
  - pose proof (List.filter_length_le (fun r => negb (cell_eq (Sector r) (VStr s))) l).
    simpl in Hlen. unfold rest. lia.
  - intros r Hr. apply List.filter_In in Hr as [Hr _]. apply Htext. right. exact Hr.
  - apply strongly_sorted_filter. apply StronglySorted_inv in Hsorted as [H _]. exact H.
Qed.

Lemma sector_rows_textual (l : list metrics) (k : value) :
  (forall r, In r l -> textual (Sector r) = true \/ Sector r = VNone) ->
  sector_rows (List.filter (fun r => textual (Sector r)) l) k = sector_rows l k.
Proof.
  intros Hl. unfold sector_rows. rewrite filter_comm. apply filter_all.
  intros r Hr. apply List.filter_In in Hr as [Hr Hk].
  destruct (Hl r Hr) as [H | H]; [exact H |].
  apply cell_eq_not_none in Hk as [Hk _]. contradiction.
Qed.

Lemma concat_text_keys (l : list metrics) (keys : list value) :
  (forall k, In k keys -> textual k = true \/ k = VNone) ->
  concat (map (sector_rows l) keys)
  = concat (map (sector_rows l) (List.filter textual keys)).
Proof.
  induction keys as [| k keys IH]; simpl; intros Hkeys; [reflexivity |].
  rewrite IH by (intros k' Hk'; apply Hkeys; right; exact Hk').
  destruct (Hkeys k (or_introl eq_refl)) as [-> | ->]; simpl; [reflexivity |].
  assert (sector_rows l VNone = []) as ->; [| reflexivity].
  apply filter_none. intros r _. destruct (Sector r); reflexivity.
Qed.

(** X6. The loop over the sectors visits the ordered table group by
    group: when every sector is a text or [None], the rows of the groups,
    in the order the loop visits them, are the rows of the ordered table
    in their order, without the rows whose sector is [None]. Such rows
    belong to no group; with text sectors only, the groups are the whole
    table. *)
Theorem sector_groups_partition (df : list metrics) :
  Forall (fun r => textual (Sector r) = true \/ Sector r = VNone) df ->
  concat (map snd (sector_groups (sort_values df)))
  = List.filter (fun r => textual (Sector r)) (sort_values df) /\
  (Forall (fun r => textual (Sector r) = true) df ->
   concat (map snd (sector_groups (sort_values df))) = sort_values df).
Proof.
  intros Hdf.
  assert (forall r, In r (sort_values df) ->
                    textual (Sector r) = true \/ Sector r = VNone) as Hsorted_df.
  { intros r Hr. rewrite List.Forall_forall in Hdf. apply Hdf.
    apply (Permutation_in r (Permutation_sym (sort_values_perm df)) Hr). }
  assert (concat (map snd (sector_groups (sort_values df)))
          = List.filter (fun r => textual (Sector r)) (sort_values df)) as Hmain.
  { set (l := sort_values df) in *.
    set (t := List.filter (fun r => textual (Sector r)) l).
    rewrite sector_groups_concat, concat_text_keys, unique_filter, filter_map_swap.
    2: { intros k Hk. apply unique_In, in_map_iff in Hk as (r & <- & Hr).
         apply Hsorted_df, Hr. }
    fold t. transitivity (concat (map (sector_rows t) (unique (map Sector t)))).
    - f_equal. apply map_ext. intros k. symmetry.
      apply (sector_rows_textual l k Hsorted_df).
    - apply (text_groups_partition (length t) t (le_n _)).
      + intros r Hr. apply List.filter_In in Hr as [_ Hr]. exact Hr.
      + apply strongly_sorted_filter, sort_values_sorted. }
  split; [exact Hmain |].
  intros Htext. rewrite Hmain. apply filter_all. intros r Hr.
  rewrite List.Forall_forall in Htext. apply Htext.
  apply (Permutation_in r (Permutation_sym (sort_values_perm df)) Hr).
Qed.

(** Four sample records and a copy of one without sector: the groups are
    Technology, Energy and Unknown, and the copy is in none of them. *)
Lemma sector_groups_partition_witness :
  map (fun g => (fst g, map Ticker (snd g)))
      (sector_groups (sort_values datos_sin_sector))
  = [(VStr "Technology", ["AAPL"; "MSFT"]); (VStr "Energy", ["XOM"]);
     (VStr "Unknown", ["ACME"])] /\
  map Ticker (sort_values datos_sin_sector) = ["AAPL"; "MSFT"; "XOM"; "ACME"; "NADA"] /\
  concat (map snd (sector_groups (sort_values datos_sin_sector)))
  = List.filter (fun r => textual (Sector r)) (sort_values datos_sin_sector).
Proof.
  split; [vm_compute; reflexivity |]. split; [vm_compute; reflexivity |].
  apply sector_groups_partition.
  apply (bool_decide_unpack _). vm_compute. exact I.
Defined.

(** ** More on the builder *)

Lemma py_or_ok (a : value) (b : result value) (v : value) :
  py_or a b = Ok v ->
  (truth a = Ok true /\ v = a) \/ (truth a = Ok false /\ b = Ok v).
Proof.
  unfold py_or. destruct (truth a) as [[|] | e |]; simpl; try discriminate.
  - intros H. injection H as <-. left. split; reflexivity.
  - intros H. right. split; [reflexivity | exact H].
Qed.

(** The fields of a record that the builder copies or derives on its own:
    the data [r] of the ticker decides them. *)
Lemma construir_fields (Rf Rm : float) (power : float -> float -> float)
    (yf : string -> download) (tk : string) (Tc_def : float) (r : raw) :
  yf tk = Data r ->
  inside (fun d =>
            Sector d = get (info r) "sector" (VStr "Unknown") /\
            MarketCap d = get (info r) "marketCap" (VNum 0) /\
            Precio d = get (info r) "currentPrice" VNone /\
            RevenueGrowth d = cagr4 power (financials r) "Total Revenue" /\
            EPSGrowth d = cagr4 power (financials r) "Net Income" /\
            py_or (cagr4 power (cashflow r) "Free Cash Flow")
                  (Ok (cagr4 power (cashflow r) "Operating Cash Flow"))
            = Ok (FCFGrowth d) /\
            py_or (get (info r) "longName" VNone)
              (py_or (get (info r) "shortName" VNone)
                 (py_or (get (info r) "displayName" VNone) (Ok (VStr tk))))
            = Ok (Nombre d) /\
            py_or (get (info r) "country" VNone)
              (py_or (get (info r) "countryCode" VNone) (Ok (VStr "N/D")))
            = Ok (Pais d) /\
            py_or (get (info r) "industry" VNone)
              (py_or (get (info r) "industryKey" VNone)
                 (py_or (get (info r) "industryDisp" VNone) (Ok (VStr "N/D"))))
            = Ok (Industria d))
         (construir Rf Rm power yf tk Tc_def).
Proof.
  intros Hyf. unfold construir. rewrite Hyf.
  change (fetch (Data r)) with (Ok r). cbv zeta.
  eapply inside_bind; [apply (inside_ok (fun _ => True)); exact I | intros ? Heq _].
  injection Heq as <-.
  repeat inside_step. simpl. repeat split; assumption.
Qed.

Lemma bind_ok {A B : Type} (a : A) (k : A -> result B) : Ok a ≫= k = k a.
Proof. reflexivity. Qed.

(** X7. The cost of equity is computed first, from [info["beta"]]: when the
    key is there with a value that is no number ([None] or a text) the
    build of the ticker raises [TypeError], whatever the statements hold;
    the default of 1 only serves when the key is absent. *)
Theorem beta_without_number_fails_build (Rf Rm : float)
    (power : float -> float -> float) (yf : string -> download)
    (tk : string) (Tc_def : float) (r : raw) (s : scalar) :
  yf tk = Data r ->
  info r !! "beta" = Some s -> (forall x : float, s <> SNum x) ->
  construir Rf Rm power yf tk Tc_def = Raise TypeError /\
  obtener_datos_financieros Rf Rm power yf tk Tc_def
  = Ok (None, ["Error obteniendo datos para " ++ tk ++ ": TypeError"]).
Proof.
  intros Hyf Hbeta Hs.
  assert (construir Rf Rm power yf tk Tc_def = Raise TypeError) as Hfail.
  { unfold construir. rewrite Hyf. change (fetch (Data r)) with (Ok r).
    rewrite bind_ok. cbv zeta.
    assert (get (info r) "beta" (VNum 1) = of_scalar s) as ->
        by (unfold get; rewrite Hbeta; reflexivity).
    destruct s as [| x | t]; [reflexivity | | reflexivity].
    exfalso. apply (Hs x). reflexivity. }
  split; [exact Hfail |].
  unfold obtener_datos_financieros. rewrite Hfail. reflexivity.
Qed.

Lemma beta_without_number_fails_build_witness :
  construir 0.03125 0.0625 power_example yf_sin_beta "XOM" 0.25 = Raise TypeError.
Proof.
  refine (proj1 (beta_without_number_fails_build
                   0.03125 0.0625 power_example yf_sin_beta "XOM" 0.25
                   _ SNone eq_refl _ _)).
  - reflexivity.
  - discriminate.
Defined.

Lemma construir_data (Rf Rm : float) (power : float -> float -> float)
    (yf : string -> download) (tk : string) (Tc_def : float) (d : metrics) :
  construir Rf Rm power yf tk Tc_def = Ok d -> exists r : raw, yf tk = Data r.
Proof.
  unfold construir. destruct (yf tk) as [r | e]; [eauto | discriminate].
Qed.

Lemma truth_scalar (i : gmap string scalar) (key : string) (dflt : value) :
  (exists b, truth dflt = Ok b) -> exists b, truth (get i key dflt) = Ok b.
Proof.
  intros Hd. unfold get. destruct (i !! key) as [[| x | t] |]; simpl; eauto.
Qed.

(** A chain of [or] that ends in a true value is true. *)
Lemma py_or_true (a : value) (b : result value) (v : value) :
  py_or a b = Ok v -> (forall w, b = Ok w -> truth w = Ok true) -> truth v = Ok true.
Proof.
  intros H Hb. apply py_or_ok in H as [[Ha ->] | [_ Hv]]; [exact Ha | apply Hb, Hv].
Qed.

(** X8. The text fields of a record need no repair: the country and the
    industry are always a true value (a non-empty text such as "N/D", or
    a non-zero number), never [None] and never the empty text, and the
    name is a true value or else the ticker itself. A ticker without the
    key "sector" gets the sector "Unknown". *)
Theorem identity_fields_are_filled (Rf Rm : float) (power : float -> float -> float)
    (yf : string -> download) (tk : string) (Tc_def : float) (r : raw) (d : metrics) :
  yf tk = Data r ->
  construir Rf Rm power yf tk Tc_def = Ok d ->
  truth (Pais d) = Ok true /\
  truth (Industria d) = Ok true /\
  (truth (Nombre d) = Ok true \/ Nombre d = VStr tk) /\
  (info r !! "sector" = None -> Sector d = VStr "Unknown").
Proof.
  intros Hyf Hd. pose proof (construir_fields Rf Rm power yf tk Tc_def r Hyf) as H.
  rewrite Hd in H. simpl in H.
  destruct H as (Hsector & _ & _ & _ & _ & _ & Hnombre & Hpais & Hind).
  split; [| split; [| split]].
  - apply (py_or_true _ _ _ Hpais). intros w Hw.
    apply (py_or_true _ _ _ Hw). intros w' Hw'. injection Hw' as <-. reflexivity.
  - apply (py_or_true _ _ _ Hind). intros w Hw.
    apply (py_or_true _ _ _ Hw). intros w' Hw'.
    apply (py_or_true _ _ _ Hw'). intros w'' Hw''. injection Hw'' as <-. reflexivity.
  - apply py_or_ok in Hnombre as [[Ha ->] | [_ Hnombre]]; [left; exact Ha |].
    apply py_or_ok in Hnombre as [[Ha ->] | [_ Hnombre]]; [left; exact Ha |].
    apply py_or_ok in Hnombre as [[Ha ->] | [_ Hnombre]]; [left; exact Ha |].
    right. injection Hnombre as <-. reflexivity.
  - intros Hnone. rewrite Hsector. unfold get. rewrite Hnone. reflexivity.
Qed.

(** ACME in the sample has neither names nor country, industry or sector. *)
Lemma identity_fields_are_filled_witness :
  exists d : metrics,
    construir_demo "ACME" = Ok d /\
    Nombre d = VStr "ACME" /\ Pais d = VStr "N/D" /\ Industria d = VStr "N/D" /\
    Sector d = VStr "Unknown" /\ truth (Pais d) = Ok true.
Proof.
  destruct (construir_demo "ACME") as [d | |] eqn:Hd; try discriminate Hd.
  exists d. split; [reflexivity |].
  assert (exists r, yf_demo "ACME" = Data r) as [r Hr] by (eexists; reflexivity).
  destruct (identity_fields_are_filled 0.03125 0.0625 power_example yf_demo
              "ACME" 0.25 r d Hr Hd) as (Hpais & _).
  injection Hd as <-. repeat split.
Defined.

Lemma cagr4_number_or_none (power : float -> float -> float) (fin : DataFrame)
    (metric : string) :
  cagr4 power fin metric = VNone \/ exists x, cagr4 power fin metric = VNum x.
Proof.
  unfold cagr4. destruct (rows fin !! metric) as [row |]; [| left; reflexivity].
  destruct (take 4 (dropna row)) as [| a [| b v]]; try (left; reflexivity).
  destruct (is_zero _); [left; reflexivity | right; eauto].
Qed.

(** X9. The free-cash-flow growth of a record falls back on the growth of
    the operating cash flow not only when the growth of the free cash flow
    is unavailable but also when it is exactly zero; any other growth of
    the free cash flow is kept. *)
Theorem fcf_growth_fallback (Rf Rm : float) (power : float -> float -> float)
    (yf : string -> download) (tk : string) (Tc_def : float) (r : raw) (d : metrics) :
  yf tk = Data r ->
  construir Rf Rm power yf tk Tc_def = Ok d ->
  match cagr4 power (cashflow r) "Free Cash Flow" with
  | VNum x =>
      if is_zero x then FCFGrowth d = cagr4 power (cashflow r) "Operating Cash Flow"
      else FCFGrowth d = VNum x
  | _ => FCFGrowth d = cagr4 power (cashflow r) "Operating Cash Flow"
  end.
Proof.
  intros Hyf Hd. pose proof (construir_fields Rf Rm power yf tk Tc_def r Hyf) as H.
  rewrite Hd in H. simpl in H.
  destruct H as (_ & _ & _ & _ & _ & Hgrowth & _).
  unfold py_or in Hgrowth.
  destruct (cagr4_number_or_none power (cashflow r) "Free Cash Flow")
    as [Hnone | [x Hx]].
  - rewrite Hnone in *. simpl in Hgrowth. injection Hgrowth as <-. reflexivity.
  - rewrite Hx in *. simpl in Hgrowth.
    destruct (is_zero x); simpl in Hgrowth; injection Hgrowth as <-; reflexivity.
Qed.

(** A free cash flow that did not move: the record shows the growth of the
    operating cash flow, one half. *)
Lemma fcf_growth_fallback_witness :
  exists d : metrics,
    construir 0.03125 0.0625 power_example yf_flat_fcf "FLAT" 0.25 = Ok d /\
    cagr4 power_example (cashflow flat_fcf) "Free Cash Flow" = VNum 0 /\
    FCFGrowth d = VNum 0.5.
Proof.
  destruct (construir 0.03125 0.0625 power_example yf_flat_fcf "FLAT" 0.25)
    as [d | |] eqn:Hd; try discriminate Hd.
  exists d. split; [reflexivity |]. split; [reflexivity |].
  pose proof (fcf_growth_fallback 0.03125 0.0625 power_example yf_flat_fcf
                "FLAT" 0.25 flat_fcf d eq_refl Hd) as H.
  vm_compute in H. exact H.
Defined.

(** ** Return on invested capital and price to free cash flow *)

(** When the invested capital [(equity or 0) + ((debt or 0) - (cash or 0))]
    is not zero it is the plain [equity + (debt - cash)]. *)
Lemma invested_capital_sum (e d c : float) :
  is_zero (or_zero e + (or_zero d - or_zero c)) = false ->
  (or_zero e + (or_zero d - or_zero c))%float = (e + (d - c))%float.
Proof.
  intros H. apply Prim2SF_inj. rewrite is_zero_spec in H.
  rewrite !FloatAxioms.add_spec, !FloatAxioms.sub_spec in *.
  unfold or_zero in *.
  rewrite !(is_zero_spec e), !(is_zero_spec d), !(is_zero_spec c) in *.
  destruct (Prim2SF e) as [s | s | | s m x] eqn:He;
    destruct (Prim2SF d) as [s' | s' | | s' m' x'] eqn:Hd;
    destruct (Prim2SF c) as [s'' | s'' | | s'' m'' x''] eqn:Hc;
    rewrite ?He, ?Hd, ?Hc in *;
    change (Prim2SF 0) with (S754_zero false) in *;
    try reflexivity; try discriminate;
    repeat match goal with b : bool |- _ => destruct b end;
    try reflexivity; try discriminate.
  all: match goal with
       | |- context [SF64sub ?a ?b] =>
           destruct (SF64sub a b) as [[|] | | |]; try reflexivity; discriminate
       end.
Qed.

(** X10. For an EBIT, a tax rate, an equity, a debt and a cash position
    that are numbers, the three steps NOPAT, invested capital and ROIC
    give [None] when the invested capital is zero and otherwise the number
    EBIT * (1 - tax) / (equity + (debt - cash)). *)
Theorem roic_of_numbers (ebit tax equity debt cash : float) :
  (nopat ← calc_nopat (VNum ebit) (VNum tax);
   invested ← calc_invested (VNum equity) (VNum debt) (VNum cash);
   calc_roic nopat invested)
  = if is_zero (or_zero equity + (or_zero debt - or_zero cash)) then Ok VNone
    else Ok (VNum (ebit * (1 - tax) / (equity + (debt - cash)))).
Proof.
  unfold calc_nopat, calc_invested, calc_roic. simpl.
  rewrite !py_or_zero. simpl.
  destruct (is_zero (or_zero equity + (or_zero debt - or_zero cash))) eqn:Hinv;
    simpl; [reflexivity |].
  rewrite (invested_capital_sum equity debt cash Hinv). reflexivity.
Qed.

Lemma py_and_num (x : float) (b : result value) :
  py_and (VNum x) b = if is_zero x then Ok (VNum x) else b.
Proof. unfold py_and. simpl. destruct (is_zero x); reflexivity. Qed.

(** X11. The price to free cash flow is [None] when the free cash flow or
    the number of shares is zero or missing, whatever the price is. With
    both non-zero numbers it is price / (fcf / shares) for a price that
    is a number, and a [TypeError] for a price of [None]: the lookup of
    "currentPrice" has no default. *)
Theorem calc_pfcf_cases :
  (forall (price : value) (fcf shares : option float),
      none_or_zero fcf = true \/ none_or_zero shares = true ->
      calc_pfcf price (number_or_none fcf) (number_or_none shares) = Ok VNone) /\
  (forall price fcf shares : float,
      is_zero fcf = false -> is_zero shares = false ->
      calc_pfcf (VNum price) (VNum fcf) (VNum shares)
      = Ok (VNum (price / (fcf / shares)))) /\
  (forall fcf shares : float,
      is_zero fcf = false -> is_zero shares = false ->
      calc_pfcf VNone (VNum fcf) (VNum shares) = Raise TypeError).
Proof.
  split; [| split].
  - intros price [f |] [s |] H; unfold calc_pfcf; simpl in *;
      rewrite ?py_and_num; try reflexivity.
    + destruct (is_zero f) eqn:Hf; simpl; rewrite ?Hf; simpl; [reflexivity |].
      destruct H as [H | H]; [discriminate | rewrite H; reflexivity].
    + destruct (is_zero f) eqn:Hf; simpl; rewrite ?Hf; reflexivity.
  - intros price fcf shares Hf Hs. unfold calc_pfcf.
    rewrite py_and_num, Hf. simpl. rewrite Hs. reflexivity.
  - intros fcf shares Hf Hs. unfold calc_pfcf.
    rewrite py_and_num, Hf. simpl. rewrite Hs. reflexivity.
Qed.

Lemma calc_pfcf_cases_witness :
  calc_pfcf (VNum 400) (VNum 64) (VNum 0) = Ok VNone /\
  calc_pfcf (VNum 400) (VNum 64) (VNum 8) = Ok (VNum 50) /\
  calc_pfcf VNone (VNum 64) (VNum 8) = Raise TypeError.
Proof.
  destruct calc_pfcf_cases as (Hnone & Hratio & Hraise).
  split; [| split].
  - apply (Hnone (VNum 400) (Some 64%float) (Some 0%float)). right. reflexivity.
  - apply (Hratio 400%float 64%float 8%float); reflexivity.
  - apply Hraise; reflexivity.
Defined.

(** X12. What [safe_first(seek_row(df, keys))] delivers on a table with at
    least one period: the first alias that names a row decides, whatever
    the later aliases hold, and the value is the most recent cell of that
    row that is not missing; when no alias names a row, the value is the
    number 0. *)
Theorem latest_value_of_line_item (df : DataFrame) (pre : list string) :
  Forall (fun k => rows df !! k = None) pre ->
  (forall (k : string) (post : list string) (missing : list float) (x : float)
          (older : list float),
      rows df !! k = Some (missing ++ x :: older)%list ->
      Forall (fun c => is_nan c = true) missing -> is_nan x = false ->
      (row ← seek_row df (pre ++ k :: post); Ok (safe_first row)) = Ok (VNum x)) /\
  (columns df <> [] ->
   (row ← seek_row df pre; Ok (safe_first row)) = Ok (VNum 0)).
Proof.
  intros Hpre. split.
  - intros k post missing x older Hk Hmissing Hx.
    rewrite (seek_row_first_match df pre k post _ Hpre Hk). simpl.
    rewrite (dropna_missing_prefix missing x older Hmissing Hx). reflexivity.
  - intros Hcols. rewrite (seek_row_no_match df pre Hpre).
    destruct (columns df); [contradiction | reflexivity].
Qed.

(** The debt of the sample company: "Total Debt" is found before "Long
    Term Debt" is looked for. *)
Lemma latest_value_of_line_item_witness :
  (row ← seek_row (balance_sheet (company [] [nan; 90%float]))
         ["Total Debt"; "Long Term Debt"];
   Ok (safe_first row)) = Ok (VNum 90) /\
  (row ← seek_row (balance_sheet (company [] [nan; 90%float])) ["Goodwill"];
   Ok (safe_first row)) = Ok (VNum 0).
Proof.
  split.
  - destruct (latest_value_of_line_item (balance_sheet (company [] [nan; 90%float])) [])
      as [Hfound _]; [constructor |].
    apply (Hfound "Total Debt" ["Long Term Debt"] [nan] 90%float []);
      [reflexivity | repeat constructor | reflexivity].
  - destruct (latest_value_of_line_item (balance_sheet (company [] [nan; 90%float]))
                                        ["Goodwill"]) as [_ Habsent].
    + repeat constructor.
    + apply Habsent. discriminate.
Defined.

(** ** The balance history *)

(** The cells of a row as [bs_recent] shows them. *)
Lemma lookup_recent (bs : DataFrame) (k : string) :
  rows (recent bs) !! k
  = (fun row => if (4 <=? length (columns bs))%nat then take 4 row else row)
      <$> rows bs !! k.
Proof.
  unfold recent. destruct (4 <=? length (columns bs))%nat; simpl.
  - apply lookup_fmap.
  - destruct (rows bs !! k); reflexivity.
Qed.

Lemma columns_recent (bs : DataFrame) : columns (recent bs) = take 4 (columns bs).
Proof.
  unfold recent. destruct (Nat.leb_spec 4 (length (columns bs))); simpl;
    [reflexivity |].
  symmetry. apply take_ge. lia.
Qed.

(** A row [seek_row] takes from [bs_recent] is the zero row or a row of
    the balance sheet, cut to four periods when the sheet has four or
    more. *)
Lemma seek_row_recent (bs : DataFrame) (keys : list string) :
  columns bs <> [] ->
  exists cells : list float,
    seek_row (recent bs) keys = Ok (VSeries cells) /\
    (cells = [0%float] \/
     exists (k : string) (row : list float),
       In k keys /\ rows bs !! k = Some row /\
       cells = if (4 <=? length (columns bs))%nat then take 4 row else row).
Proof.
  intros Hcols. induction keys as [| k keys IH]; simpl.
  - rewrite columns_recent. destruct (columns bs) as [| c cs]; [contradiction |].
    simpl. eauto.
  - rewrite lookup_recent. destruct (rows bs !! k) as [row |] eqn:Hk; simpl.
    + eexists. split; [reflexivity |]. right. exists k, row. auto.
    + destruct IH as (cells & Hcells & Hfrom). exists cells. split; [exact Hcells |].
      destruct Hfrom as [-> | (k' & row & Hin & Hrow & ->)]; [left; reflexivity |].
      right. exists k', row. auto.
Qed.

(** X13. [obtener_datos_balance_historico] answers for every ticker. A
    failure of the provider gives the four [None]s and one warning; an
    empty balance sheet gives the four [None]s without warning; any other
    sheet gives, without warning, three rows and the years of its first
    four periods, each row being the one-cell zero row or a row of the
    sheet cut to those periods: [seek_row] cannot fail here. *)
Theorem balance_history_outcome (yf : string -> download) (year : string -> string)
    (tk : string) :
  match yf tk with
  | Failure e =>
      obtener_datos_balance_historico yf year tk
      = Ok (None, ["Error obteniendo datos históricos para " ++ tk ++ ": " ++ describe e])
  | Data r =>
      let bs := balance_sheet r in
      if frame_empty bs then
        obtener_datos_balance_historico yf year tk = Ok (None, [])
      else
        exists activos pasivos patrimonio : list float,
          obtener_datos_balance_historico yf year tk
          = Ok (Some (VSeries activos, VSeries pasivos, VSeries patrimonio,
                      map year (take 4 (columns bs))), []) /\
          Forall (fun cells =>
                    cells = [0%float] \/
                    exists (k : string) (row : list float),
                      rows bs !! k = Some row /\
                      cells = if (4 <=? length (columns bs))%nat
                              then take 4 row else row)
                 [activos; pasivos; patrimonio]
  end.
Proof.
  unfold obtener_datos_balance_historico, historico.
  destruct (yf tk) as [r | e]; [| reflexivity].
  change (fetch (Data r)) with (Ok r). rewrite bind_ok. cbv zeta.
  destruct (frame_empty (balance_sheet r)) eqn:Hempty; [reflexivity |].
  assert (columns (balance_sheet r) <> []) as Hcols.
  { unfold frame_empty in Hempty. destruct (columns (balance_sheet r)); discriminate. }
  destruct (seek_row_recent (balance_sheet r) ["Total Assets"; "TotalAssets"] Hcols)
    as (a & Hseek_a & Ha).
  destruct (seek_row_recent (balance_sheet r) ["Total Liabilities"; "TotalLiab"] Hcols)
    as (p & Hseek_p & Hp).
  destruct (seek_row_recent (balance_sheet r)
              ["Total Stockholder Equity"; "Stockholders Equity"] Hcols)
    as (e & Hseek_e & He).
  exists a, p, e. rewrite Hseek_a, bind_ok, Hseek_p, bind_ok, Hseek_e, bind_ok.
  rewrite columns_recent. split; [reflexivity |].
  constructor; [| constructor; [| constructor; [| constructor]]].
  - destruct Ha as [-> | (k & row & _ & Hrow & ->)]; [left | right]; eauto.
  - destruct Hp as [-> | (k & row & _ & Hrow & ->)]; [left | right]; eauto.
  - destruct He as [-> | (k & row & _ & Hrow & ->)]; [left | right]; eauto.
Qed.

(** X14. The rows of the balance history need not be equally long: on a
    sheet with two or more periods whose assets are found and whose
    liabilities are under neither alias, the assets come with one cell
    per year returned and the liabilities as the single cell of the zero
    row. *)
Theorem balance_history_uneven_rows (yf : string -> download)
    (year : string -> string) (tk : string) (r : raw) (row : list float) :
  yf tk = Data r ->
  rows (balance_sheet r) !! "Total Assets" = Some row ->
  length row = length (columns (balance_sheet r)) ->
  2 <= length (columns (balance_sheet r)) ->
  rows (balance_sheet r) !! "Total Liabilities" = None ->
  rows (balance_sheet r) !! "TotalLiab" = None ->
  exists (activos : list float) (patrimonio : value) (years : list string),
    obtener_datos_balance_historico yf year tk
    = Ok (Some (VSeries activos, VSeries [0%float], patrimonio, years), []) /\
    length activos = length years /\
    length years = Nat.min 4 (length (columns (balance_sheet r))) /\
    length [0%float] < length years.
Proof.
  intros Hyf Hrow Hlen Hcols Hl1 Hl2.
  unfold obtener_datos_balance_historico, historico. rewrite Hyf.
  change (fetch (Data r)) with (Ok r). rewrite bind_ok. cbv zeta.
  assert (frame_empty (balance_sheet r) = false) as ->.
  { unfold frame_empty. destruct (columns (balance_sheet r)); [simpl in Hcols; lia |].
    apply bool_decide_eq_false. intros Hnone. rewrite Hnone in Hrow.
    rewrite lookup_empty in Hrow. discriminate. }
  assert (columns (balance_sheet r) <> []) as Hne
      by (destruct (columns (balance_sheet r)); [simpl in Hcols; lia | discriminate]).
  assert (seek_row (recent (balance_sheet r)) ["Total Assets"; "TotalAssets"]
          = Ok (VSeries (if (4 <=? length (columns (balance_sheet r)))%nat
                         then take 4 row else row))) as ->.
  { simpl. rewrite lookup_recent, Hrow. reflexivity. }
  assert (seek_row (recent (balance_sheet r)) ["Total Liabilities"; "TotalLiab"]
          = Ok (VSeries [0%float])) as ->.
  { simpl. rewrite !lookup_recent, Hl1, Hl2, columns_recent. simpl.
    destruct (columns (balance_sheet r)); [contradiction | reflexivity]. }
  destruct (seek_row_recent (balance_sheet r)
              ["Total Stockholder Equity"; "Stockholders Equity"] Hne)
    as (e & -> & _).
  rewrite !bind_ok, columns_recent.
  eexists _, _, _. split; [reflexivity |].
  rewrite length_map, length_take.
  change (length [0%float]) with 1.
  destruct (Nat.leb_spec 4 (length (columns (balance_sheet r))));
    rewrite ?length_take; lia.
Qed.

(** Five years of assets without a row of liabilities: four cells against
    one. *)
Lemma balance_history_uneven_rows_witness :
  exists (activos : list float) (patrimonio : value) (years : list string),
    obtener_datos_balance_historico yf_history (fun label => label) "XOM"
    = Ok (Some (VSeries activos, VSeries [0%float], patrimonio, years), []) /\
    length activos = length years /\
    length years = Nat.min 4 (length (columns balance_five_years)) /\
    length [0%float] < length years.
Proof.
  apply (balance_history_uneven_rows yf_history (fun label => label) "XOM"
           {| info := ∅; balance_sheet := balance_five_years;
              financials := empty_statement; cashflow := empty_statement |}
           [500%float; 480%float; 450%float; 400%float; 390%float]).
  - reflexivity.
  - reflexivity.
  - reflexivity.
  - simpl. lia.
  - reflexivity.
  - reflexivity.
Defined.

(** ** When the builder returns a record *)

Lemma get_number (i : gmap string scalar) (key : string) (x0 : float) :
  numeric_or_absent i key -> exists x : float, get i key (VNum x0) = VNum x.
Proof.
  intros [H | [x H]]; unfold get; rewrite H; simpl; eauto.
Qed.

Lemma get_number_or_none (i : gmap string scalar) (key : string) :
  numeric_or_absent i key -> exists o : option float, get i key VNone = number_or_none o.
Proof.
  intros [H | [x H]]; unfold get; rewrite H; simpl;
    [exists None | exists (Some x)]; reflexivity.
Qed.

Lemma filled_latest (df : DataFrame) (keys : list string) :
  filled df ->
  exists (row : list float) (x : float),
    seek_row df keys = Ok (VSeries row) /\ safe_first (VSeries row) = VNum x.
Proof.
  intros [Hcols Hrows]. induction keys as [| k keys IH]; simpl.
  - destruct (columns df); [contradiction |]. exists [0%float], 0%float. auto.
  - destruct (rows df !! k) as [row |] eqn:Hk; [| exact IH].
    exists row. specialize (Hrows k row Hk).
    destruct (dropna row) as [| x rest]; [contradiction |]. exists x. auto.
Qed.

Lemma py_or_numbers (x y : float) :
  exists z : float, py_or (VNum x) (Ok (VNum y)) = Ok (VNum z).
Proof. rewrite py_or_num. destruct (is_zero x); eauto. Qed.

Lemma calc_kd_number (i d : float) :
  exists x : float, calc_kd (VNum i) (VNum d) = Ok (VNum x).
Proof. unfold calc_kd. simpl. destruct (is_zero d); simpl; eauto. Qed.

Lemma tax_rate_number (t e Tc_def : float) :
  exists x : float, tax_rate (VNum t) (VNum e) Tc_def = Ok (VNum x).
Proof. unfold tax_rate. simpl. destruct (is_zero e); simpl; eauto. Qed.

Lemma calc_wacc_number (E D ke kd t : float) :
  exists o : option float,
    calc_wacc (VNum E) (VNum D) (VNum ke) (VNum kd) (VNum t) = Ok (number_or_none o).
Proof.
  rewrite calc_wacc_weighted. destruct (is_zero _); [exists None | eexists (Some _)];
    reflexivity.
Qed.

Lemma calc_invested_number (e d c : float) :
  exists x : float, calc_invested (VNum e) (VNum d) (VNum c) = Ok (VNum x).
Proof. unfold calc_invested. rewrite !py_or_zero. simpl. eauto. Qed.

Lemma calc_roic_number (n i : float) :
  exists o : option float, calc_roic (VNum n) (VNum i) = Ok (number_or_none o).
Proof.
  unfold calc_roic. simpl. destruct (is_zero i); simpl;
    [exists None | eexists (Some _)]; reflexivity.
Qed.

Lemma creacion_valor_number (roic wacc : option float) :
  exists v : value,
    creacion_valor (number_or_none roic) (number_or_none wacc) = Ok v.
Proof. destruct roic, wacc; simpl; eauto. Qed.

Lemma calc_pfcf_number (price fcf : float) (shares : option float) :
  exists v : value, calc_pfcf (VNum price) (VNum fcf) (number_or_none shares) = Ok v.
Proof.
  unfold calc_pfcf. rewrite py_and_num.
  destruct (is_zero fcf) eqn:Hf; simpl; rewrite ?Hf; simpl; [eauto |].
  destruct shares as [s |]; simpl; [| eauto].
  destruct (is_zero s); simpl; eauto.
Qed.

Lemma py_or_growth (power : float -> float -> float) (cf : DataFrame) (k k' : string) :
  exists v : value, py_or (cagr4 power cf k) (Ok (cagr4 power cf k')) = Ok v.
Proof.
  destruct (cagr4_number_or_none power cf k) as [-> | [x ->]]; simpl; [eauto |].
  rewrite py_or_num. destruct (is_zero x); eauto.
Qed.

Lemma py_or_scalar (i : gmap string scalar) (key : string) (b : result value) :
  (exists v, b = Ok v) -> exists v, py_or (get i key VNone) b = Ok v.
Proof.
  intros [w ->]. unfold get, py_or.
  destruct (i !! key) as [[| x | t] |]; simpl; eauto.
  - destruct (is_zero x); simpl; eauto.
  - destruct (String.eqb t ""); simpl; eauto.
Qed.

(** One step of the builder that is known to return. *)
Ltac returns H := rewrite H, bind_ok; cbv beta.

(** With complete data every step of the builder returns. *)
Lemma complete_data_builds (Rf Rm : float) (power : float -> float -> float)
    (yf : string -> download) (tk : string) (Tc_def : float) (r : raw) :
  yf tk = Data r -> complete r ->
  exists d : metrics, construir Rf Rm power yf tk Tc_def = Ok d.
Proof.
  intros Hyf (Hbeta & Hmcap & Hdebt & Hshares & [price Hprice] & Hbs & Hfin & Hcf).
  unfold construir. rewrite Hyf. change (fetch (Data r)) with (Ok r).
  rewrite bind_ok. cbv zeta.
  destruct (get_number (info r) "beta" 1 Hbeta) as [beta ->].
  change (calc_ke Rf Rm (VNum beta)) with (Ok (VNum (Rf + beta * (Rm - Rf)))).
  rewrite bind_ok. cbv beta.
  destruct (filled_latest (balance_sheet r) ["Total Debt"; "Long Term Debt"] Hbs)
    as (row1 & x1 & Hs1 & Hv1).
  returns Hs1. rewrite Hv1.
  destruct (get_number (info r) "totalDebt" 0 Hdebt) as [td ->].
  destruct (py_or_numbers x1 td) as [debt Hdebt'].
  returns Hdebt'.
  destruct (filled_latest (balance_sheet r)
              ["Cash And Cash Equivalents";
               "Cash And Cash Equivalents At Carrying Value";
               "Cash Cash Equivalents And Short Term Investments"] Hbs)
    as (row2 & cash & Hs2 & Hv2).
  returns Hs2. rewrite Hv2.
  destruct (filled_latest (balance_sheet r)
              ["Common Stock Equity"; "Total Stockholder Equity"] Hbs)
    as (row3 & equity & Hs3 & Hv3).
  returns Hs3. rewrite Hv3.
  destruct (filled_latest (financials r) ["Interest Expense"] Hfin)
    as (row4 & interest & Hs4 & Hv4).
  returns Hs4. rewrite Hv4.
  destruct (filled_latest (financials r) ["Ebt"; "EBT"] Hfin)
    as (row5 & ebt & Hs5 & Hv5).
  returns Hs5. rewrite Hv5.
  destruct (filled_latest (financials r) ["Income Tax Expense"] Hfin)
    as (row6 & tax_exp & Hs6 & Hv6).
  returns Hs6. rewrite Hv6.
  destruct (filled_latest (financials r)
              ["EBIT"; "Operating Income"; "Earnings Before Interest and Taxes"] Hfin)
    as (row7 & ebit & Hs7 & Hv7).
  returns Hs7. rewrite Hv7.
  destruct (calc_kd_number interest debt) as [kd Hkd]. returns Hkd.
  destruct (tax_rate_number tax_exp ebt Tc_def) as [tax Htax]. returns Htax.
  destruct (get_number (info r) "marketCap" 0 Hmcap) as [mcap ->].
  destruct (calc_wacc_number mcap debt (Rf + beta * (Rm - Rf)) kd tax)
    as [wacc Hwacc].
  returns Hwacc.
  change (calc_nopat (VNum ebit) (VNum tax)) with (Ok (VNum (ebit * (1 - tax)))).
  rewrite bind_ok. cbv beta.
  destruct (calc_invested_number equity debt cash) as [inv Hinv]. returns Hinv.
  destruct (calc_roic_number (ebit * (1 - tax)) inv) as [roic Hroic]. returns Hroic.
  destruct (creacion_valor_number roic wacc) as [spread Hspread]. returns Hspread.
  destruct (filled_latest (cashflow r) ["Free Cash Flow"] Hcf)
    as (row8 & fcf & Hs8 & Hv8).
  returns Hs8. rewrite Hv8.
  assert (get (info r) "currentPrice" VNone = VNum price) as ->
      by (unfold get; rewrite Hprice; reflexivity).
  destruct (get_number_or_none (info r) "sharesOutstanding" Hshares) as [shares ->].
  destruct (calc_pfcf_number price fcf shares) as [pfcf Hpfcf]. returns Hpfcf.
  destruct (py_or_growth power (cashflow r) "Free Cash Flow" "Operating Cash Flow")
    as [growth Hgrowth].
  returns Hgrowth.
  destruct (py_or_scalar (info r) "longName"
              (py_or (get (info r) "shortName" VNone)
                 (py_or (get (info r) "displayName" VNone) (Ok (VStr tk)))))
    as [nombre Hnombre].
  { apply py_or_scalar, py_or_scalar. eauto. }
  returns Hnombre.
  destruct (py_or_scalar (info r) "country"
              (py_or (get (info r) "countryCode" VNone) (Ok (VStr "N/D"))))
    as [pais Hpais].
  { apply py_or_scalar. eauto. }
  returns Hpais.
  destruct (py_or_scalar (info r) "industry"
              (py_or (get (info r) "industryKey" VNone)
                 (py_or (get (info r) "industryDisp" VNone) (Ok (VStr "N/D")))))
    as [industria Hindustria].
  { apply py_or_scalar, py_or_scalar. eauto. }
  returns Hindustria.
  eauto.
Qed.

(** X15. Data under which the builder returns a record: [info] holds
    numbers under "beta", "marketCap", "totalDebt" and "sharesOutstanding"
    where it holds these keys at all and a number under "currentPrice",
    and each of the three statement tables has a period and no line item
    without a value. Then [obtener_datos_financieros] returns a record for
    the ticker and puts nothing on the screen. *)
Theorem complete_data_gives_record (Rf Rm : float) (power : float -> float -> float)
    (yf : string -> download) (tk : string) (Tc_def : float) (r : raw) :
  yf tk = Data r -> complete r ->
  exists d : metrics,
    construir Rf Rm power yf tk Tc_def = Ok d /\
    obtener_datos_financieros Rf Rm power yf tk Tc_def = Ok (Some d, []) /\
    Ticker d = tk.
Proof.
  intros Hyf Hr.
  destruct (complete_data_builds Rf Rm power yf tk Tc_def r Hyf Hr) as [d Hd].
  exists d. split; [exact Hd |]. split.
  - unfold obtener_datos_financieros. rewrite Hd. reflexivity.
  - exact (construir_ticker _ _ _ _ _ _ _ Hd).
Qed.

Lemma company_filled (entries : list (string * scalar)) :
  filled (balance_sheet (company entries [100%float; 90%float])) /\
  filled (financials (company entries [100%float; 90%float])) /\
  filled (cashflow (company entries [100%float; 90%float])).
Proof.
  repeat split; try discriminate;
    apply (bool_decide_unpack
             (map_Forall (fun (_ : string) (row : list float) => dropna row <> []) _));
    vm_compute; exact I.
Qed.

(** MSFT in the sample has complete data. *)
Lemma complete_data_gives_record_witness :
  exists d : metrics,
    construir_demo "MSFT" = Ok d /\
    obtener_datos_financieros 0.03125 0.0625 power_example yf_demo "MSFT" 0.25
    = Ok (Some d, []) /\
    Ticker d = "MSFT".
Proof.
  apply (complete_data_gives_record 0.03125 0.0625 power_example yf_demo "MSFT" 0.25
           (company [("sector", SStr "Technology"); ("marketCap", SNum 3000%float);
                     ("currentPrice", SNum 400%float);
                     ("sharesOutstanding", SNum 8%float)]
                    [100%float; 90%float])).
  - reflexivity.
  - destruct (company_filled [("sector", SStr "Technology"); ("marketCap", SNum 3000%float);
                              ("currentPrice", SNum 400%float);
                              ("sharesOutstanding", SNum 8%float)])
      as (Hbs & Hfin & Hcf).
    unfold complete.
    split; [| split; [| split; [| split; [| split; [| split; [| split]]]]]];
      try assumption.
    + left. reflexivity.
    + right. eexists. reflexivity.
    + left. reflexivity.
    + right. eexists. reflexivity.
    + eexists. reflexivity.
Defined.

(** ** The tickers entered *)

Lemma upper_char_facts (c : Ascii.ascii) :
  is_lower (upper_char c) = false /\
  is_space (upper_char c) = is_space c /\
  (c <> comma -> upper_char c <> comma) /\
  (is_lower c = false -> upper_char c = c).
Proof.
  destruct c as [[|] [|] [|] [|] [|] [|] [|] [|]];
    vm_compute; repeat split; intros; congruence.
Qed.

Lemma lstrip_spec (l : list Ascii.ascii) :
  exists pre : list Ascii.ascii,
    l = (pre ++ lstrip l)%list /\
    (forall c, head (lstrip l) = Some c -> is_space c = false).
Proof.
  induction l as [| c l IH]; simpl.
  - exists []. split; [reflexivity | discriminate].
  - destruct (is_space c) eqn:Hc.
    + destruct IH as (pre & Hpre & Hhead). exists (c :: pre). simpl.
      split; [f_equal; exact Hpre | exact Hhead].
    + exists []. split; [reflexivity |]. simpl. intros c' H. injection H as <-. exact Hc.
Qed.

Lemma rstrip_spec (l : list Ascii.ascii) :
  exists suf : list Ascii.ascii,
    l = (rstrip l ++ suf)%list /\
    (forall c, last (rstrip l) = Some c -> is_space c = false).
Proof.
  unfold rstrip. destruct (lstrip_spec (rev l)) as (pre & Hpre & Hhead).
  exists (rev pre). split.
  - rewrite <- rev_app_distr, <- Hpre, rev_involutive. reflexivity.
  - intros c Hc. apply Hhead. rewrite <- Hc.
    destruct (lstrip (rev l)) as [| x rest]; [reflexivity |].
    simpl. rewrite last_snoc. reflexivity.
Qed.

(** What [strip] leaves is a part of the text that neither starts nor ends
    with white space. *)
Lemma strip_spec (l : list Ascii.ascii) :
  (exists pre suf : list Ascii.ascii, l = (pre ++ strip l ++ suf)%list) /\
  (forall c, head (strip l) = Some c -> is_space c = false) /\
  (forall c, last (strip l) = Some c -> is_space c = false).
Proof.
  unfold strip. destruct (lstrip_spec l) as (pre & Hpre & Hhead).
  destruct (rstrip_spec (lstrip l)) as (suf & Hsuf & Hlast).
  split; [| split].
  - exists pre, suf. rewrite <- Hsuf. exact Hpre.
  - intros c Hc. apply Hhead. rewrite Hsuf, head_app, Hc. reflexivity.
  - exact Hlast.
Qed.

Lemma split_comma_pieces (l : list Ascii.ascii) :
  Forall (Forall (fun c => c <> comma)) (split_comma l) /\ split_comma l <> [].
Proof.
  induction l as [| c l [IH Hne]]; simpl.
  - split; [repeat constructor | discriminate].
  - destruct (Ascii.eqb_spec c comma) as [-> | Hc].
    + split; [constructor; [constructor | exact IH] | discriminate].
    + destruct (split_comma l) as [| piece pieces]; [contradiction |].
      apply Forall_cons in IH as [Hpiece Hpieces].
      split; [| discriminate]. constructor; [constructor; assumption | exact Hpieces].
Qed.

(** X16. The tickers taken from the text entered are at most [max_t], and
    each of them is tidy: not empty, free of commas and of lower-case
    letters, and without white space at its ends. *)
Theorem entered_tickers_are_tidy (t_in : string) (max_t : nat) :
  ascii_text t_in ->
  length (entered_tickers t_in max_t) <= max_t /\
  Forall tidy (entered_tickers t_in max_t).
Proof.
  intros _. unfold entered_tickers. split.
  { rewrite length_take. lia. }
  apply Forall_take, Forall_fmap, Forall_forall. intros t Ht.
  apply list_elem_of_In, List.filter_In in Ht as [Ht Hne].
  destruct (split_comma_pieces (list_ascii_of_string t_in)) as [Hpieces _].
  rewrite List.Forall_forall in Hpieces. specialize (Hpieces t Ht).
  destruct (strip_spec t) as ((pre & suf & Hparts) & Hhead & Hlast).
  assert (Forall (fun c => c <> comma) (strip t)) as Hstrip.
  { rewrite Hparts in Hpieces. apply Forall_app in Hpieces as [_ H].
    apply Forall_app in H as [H _]. exact H. }
  unfold tidy. simpl. rewrite list_ascii_of_string_of_list_ascii.
  split; [| split; [| split]].
  - destruct (strip t); [discriminate | discriminate].
  - apply Forall_fmap. eapply List.Forall_impl; [| exact Hstrip].
    intros c Hc. simpl. destruct (upper_char_facts c) as (Hlow & _ & Hcomma & _).
    split; [apply Hcomma, Hc | exact Hlow].
  - intros c Hc. destruct (strip t) as [| x rest]; [discriminate |].
    simpl in Hc. injection Hc as <-.
    destruct (upper_char_facts x) as (_ & -> & _). apply Hhead. reflexivity.
  - intros c Hc. rewrite fmap_last in Hc.
    destruct (last (strip t)) as [x |] eqn:Hx; [| discriminate].
    simpl in Hc. injection Hc as <-.
    destruct (upper_char_facts x) as (_ & -> & _). apply Hlast. reflexivity.
Qed.

(** The default text of the input box, cut to three tickers. *)
Lemma entered_tickers_are_tidy_witness :
  entered_tickers "HRL, aapl ,, MSFT,ABT" 3 = ["HRL"; "AAPL"; "MSFT"] /\
  Forall tidy (entered_tickers "HRL, aapl ,, MSFT,ABT" 3).
Proof.
  split; [reflexivity |].
  apply (entered_tickers_are_tidy "HRL, aapl ,, MSFT,ABT" 3).
  apply (bool_decide_unpack _). vm_compute. exact I.
Defined.

Lemma list_ascii_of_string_app (a b : string) :
  list_ascii_of_string (a ++ b) =
  (list_ascii_of_string a ++ list_ascii_of_string b)%list.
Proof.
  induction a as [| c a IH]; simpl; [reflexivity | rewrite IH; reflexivity].
Qed.

Lemma split_comma_plain (t : list Ascii.ascii) :
  Forall (fun c => c <> comma) t -> split_comma t = [t].
Proof.
  induction 1 as [| c t Hc _ IH]; simpl; [reflexivity |].
  destruct (Ascii.eqb_spec c comma); [contradiction |]. rewrite IH. reflexivity.
Qed.

Lemma split_comma_app (t rest : list Ascii.ascii) :
  Forall (fun c => c <> comma) t ->
  split_comma (t ++ comma :: rest) = t :: split_comma rest.
Proof.
  induction 1 as [| c t Hc _ IH]; simpl.
  - reflexivity.
  - destruct (Ascii.eqb_spec c comma); [contradiction |]. rewrite IH. reflexivity.
Qed.

Lemma lstrip_fixed (l : list Ascii.ascii) :
  Forall (fun c => is_space c = false) l -> lstrip l = l.
Proof.
  destruct 1 as [| c l Hc _]; simpl; [reflexivity | rewrite Hc; reflexivity].
Qed.

Lemma strip_fixed (l : list Ascii.ascii) :
  Forall (fun c => is_space c = false) l -> strip l = l.
Proof.
  intros H. unfold strip, rstrip. rewrite (lstrip_fixed l H), lstrip_fixed.
  - apply rev_involutive.
  - apply List.Forall_rev, H.
Qed.

Lemma upper_fixed (l : list Ascii.ascii) :
  Forall (fun c => is_lower c = false) l -> map upper_char l = l.
Proof.
  induction 1 as [| c l Hc _ IH]; simpl; [reflexivity |].
  rewrite IH. f_equal. apply upper_char_facts, Hc.
Qed.

(** The pieces of a comma-and-space separated list of symbols. *)
Lemma split_comma_joined (t : string) (ts : list string) :
  Forall symbol (t :: ts) ->
  split_comma (list_ascii_of_string (String.concat ", " (t :: ts))) =
  list_ascii_of_string t ::
    map (fun s => Ascii.ascii_of_N 32 :: list_ascii_of_string s) ts.
Proof.
  revert t. induction ts as [| t' ts IH]; intros t Hts.
  - simpl. apply split_comma_plain.
    apply Forall_inv in Hts. destruct Hts as [_ Hts].
    eapply List.Forall_impl; [| exact Hts]. simpl. tauto.
  - change (String.concat ", " (t :: t' :: ts))
      with (t ++ ", " ++ String.concat ", " (t' :: ts))%string.
    rewrite list_ascii_of_string_app.
    change (list_ascii_of_string (", " ++ String.concat ", " (t' :: ts)))
      with (comma :: Ascii.ascii_of_N 32 ::
              list_ascii_of_string (String.concat ", " (t' :: ts))).
    pose proof (Forall_inv Hts) as [_ Ht]. pose proof (Forall_inv_tail Hts) as Hrest.
    rewrite split_comma_app
      by (eapply List.Forall_impl; [| exact Ht]; simpl; tauto).
    f_equal.
    change (split_comma (Ascii.ascii_of_N 32 ::
                list_ascii_of_string (String.concat ", " (t' :: ts))))
      with (match split_comma (list_ascii_of_string (String.concat ", " (t' :: ts))) with
            | piece :: pieces => (Ascii.ascii_of_N 32 :: piece) :: pieces
            | [] => [[Ascii.ascii_of_N 32]]
            end).
    rewrite (IH t' Hrest). reflexivity.
Qed.

Lemma strip_symbol (s : string) :
  symbol s ->
  strip (list_ascii_of_string s) = list_ascii_of_string s /\
  strip (Ascii.ascii_of_N 32 :: list_ascii_of_string s) = list_ascii_of_string s /\
  list_ascii_of_string s <> [] /\
  string_of_list_ascii (map upper_char (list_ascii_of_string s)) = s.
Proof.
  intros [Hne Hs].
  assert (strip (list_ascii_of_string s) = list_ascii_of_string s) as Hstrip.
  { apply strip_fixed. eapply List.Forall_impl; [| exact Hs]. simpl. tauto. }
  split; [exact Hstrip | split; [exact Hstrip | split; [exact Hne |]]].
  rewrite upper_fixed, string_of_list_ascii_of_string; [reflexivity |].
  eapply List.Forall_impl; [| exact Hs]. simpl. tauto.
Qed.

Lemma read_pieces (pieces : list (list Ascii.ascii)) (ts : list string) :
  Forall2 (fun x s => symbol s /\ strip x = list_ascii_of_string s) pieces ts ->
  map (fun t => string_of_list_ascii (map upper_char (strip t)))
    (List.filter (fun t => match strip t with [] => false | _ :: _ => true end)
       pieces) = ts.
Proof.
  set (p := fun t => match strip t with [] => false | _ :: _ => true end).
  set (f := fun t => string_of_list_ascii (map upper_char (strip t))).
  induction 1 as [| x s pieces ts [Hs Hstrip] _ IH]; [reflexivity |].
  destruct (strip_symbol s Hs) as (_ & _ & Hne & Hup).
  assert (p x = true) as Hp.
  { unfold p. rewrite Hstrip. destruct (list_ascii_of_string s); [contradiction | reflexivity]. }
  assert (f x = s) as Hf.
  { unfold f. rewrite Hstrip. exact Hup. }
  cbn [List.filter]. rewrite Hp. cbn [map]. rewrite Hf, IH. reflexivity.
Qed.

(** X17. Symbols written one after the other, separated by a comma and a
    space, are read back as they were written, as long as they are no more
    than [max_t]. *)
Theorem entered_tickers_round_trip (ts : list string) (max_t : nat) :
  Forall symbol ts ->
  length ts <= max_t ->
  entered_tickers (String.concat ", " ts) max_t = ts.
Proof.
  intros Hts Hlen. unfold entered_tickers.
  match goal with |- take _ ?l = _ => assert (l = ts) as -> end;
    [| apply take_ge; exact Hlen].
  clear Hlen. destruct ts as [| t ts]; [reflexivity |].
  rewrite (split_comma_joined t ts Hts). apply read_pieces.
  pose proof (Forall_inv Hts) as Ht. pose proof (Forall_inv_tail Hts) as Hrest.
  constructor.
  - split; [exact Ht | apply strip_symbol, Ht].
  - clear -Hrest. induction Hrest as [| s ts Hs _ IH]; [constructor |].
    simpl. constructor; [| exact IH].
    split; [exact Hs | apply strip_symbol, Hs].
Qed.

Lemma entered_tickers_round_trip_witness :
  entered_tickers "HRL, AAPL, BRK-B" 50 = ["HRL"; "AAPL"; "BRK-B"].
Proof.
  apply (entered_tickers_round_trip ["HRL"; "AAPL"; "BRK-B"] 50).
  - unfold symbol. repeat constructor; try discriminate; vm_compute; reflexivity.
  - simpl. lia.
Defined.

(** ** A batch of tickers with complete data *)

(** X18. When the provider has complete data for every ticker of a batch,
    the loop of [main] ends with one record per ticker, in the order the
    tickers were entered, and with nothing on the screen and nothing in
    [errs]. *)
Theorem complete_batch_gives_all_records (Rf Rm : float)
    (power : float -> float -> float) (yf : string -> download) (Tc0 : float)
    (tickers : list string) :
  (forall tk : string, tk ∈ tickers -> exists r : raw, yf tk = Data r /\ complete r) ->
  exists st : batch,
    analizar Rf Rm power yf Tc0 tickers = Ok st /\
    map Ticker (datos st) = tickers /\
    shown st = [] /\
    errs st = [].
Proof.
  intros Hall. rewrite analizar_outcome. eexists. split; [reflexivity |].
  cbn [datos shown errs]. split; [| split; [| reflexivity]].
  - induction tickers as [| tk rest IH]; [reflexivity |].
    destruct (Hall tk) as (r & Hyf & Hr); [left |].
    destruct (complete_data_builds Rf Rm power yf tk Tc0 r Hyf Hr) as [d Hd].
    unfold omap in *. cbn [list_omap]. unfold construido at 1. rewrite Hd.
    cbn [map]. rewrite (construir_ticker _ _ _ _ _ _ _ Hd). f_equal. apply IH.
    intros tk' Hin. apply Hall. right. exact Hin.
  - induction tickers as [| tk rest IH]; [reflexivity |].
    destruct (Hall tk) as (r & Hyf & Hr); [left |].
    destruct (complete_data_builds Rf Rm power yf tk Tc0 r Hyf Hr) as [d Hd].
    cbn [map concat]. unfold aviso at 1. rewrite Hd. cbn [app].
    apply IH. intros tk' Hin. apply Hall. right. exact Hin.
Qed.

Lemma msft_complete :
  exists r : raw, yf_demo "MSFT" = Data r /\ complete r.
Proof.
  eexists. split; [reflexivity |].
  destruct (company_filled [("sector", SStr "Technology"); ("marketCap", SNum 3000%float);
                            ("currentPrice", SNum 400%float);
                            ("sharesOutstanding", SNum 8%float)])
    as (Hbs & Hfin & Hcf).
  unfold complete.
  split; [| split; [| split; [| split; [| split; [| split; [| split]]]]]];
    try assumption.
  - left. reflexivity.
  - right. eexists. reflexivity.
  - left. reflexivity.
  - right. eexists. reflexivity.
  - eexists. reflexivity.
Qed.

(** A ticker entered twice is built twice. *)
Lemma complete_batch_gives_all_records_witness :
  exists st : batch,
    analizar_demo ["MSFT"; "MSFT"] = Ok st /\
    map Ticker (datos st) = ["MSFT"; "MSFT"] /\ shown st = [] /\ errs st = [].
Proof.
  apply (complete_batch_gives_all_records 0.03125 0.0625 power_example yf_demo 0.25
           ["MSFT"; "MSFT"]).
  intros tk Htk.
  assert (tk = "MSFT") as ->; [| exact msft_complete].
  apply list_elem_of_In in Htk. simpl in Htk.
  destruct Htk as [<- | [<- | []]]; reflexivity.
Defined.
